(** * The upload command of the bot: confirmation gate, scratch files,
    transcoding, publishing and cleanup ([src/commands/upload.ts]).

    The command is embedded as a function from the interaction it receives and
    from the answers of the outside world (button presses, HTTP fetches, the
    encoder, the two platforms, the site) to the list of effects it performs, in
    program order, and the way it ends. *)

From Stdlib Require Import ZArith List Bool Ascii String Lia.
Import ListNotations.
Open Scope string_scope.

(** ** JavaScript strings

    A string is a sequence of code units; [ascii] carries the code units
    U+0000 to U+00FF. *)

Definition nl : string := String "010"%char EmptyString.
Definition dquote : string := String "034"%char EmptyString.
Definition comma : ascii := ","%char.

Module JS.

(** White space and line terminators of ECMAScript below U+0100:
    TAB, LF, VT, FF, CR, SP and NBSP. *)
Definition isWhiteSpace (c : ascii) : bool :=
  let n := nat_of_ascii c in
  (((9 <=? n) && (n <=? 13)) || (n =? 32) || (n =? 160))%nat.

Fixpoint trimStart (s : string) : string :=
  match s with
  | EmptyString => EmptyString
  | String c s' => if isWhiteSpace c then trimStart s' else s
  end.

Fixpoint trimEnd (s : string) : string :=
  match s with
  | EmptyString => EmptyString
  | String c s' =>
      match trimEnd s' with
      | EmptyString => if isWhiteSpace c then EmptyString else String c EmptyString
      | t => String c t
      end
  end.

(** [String.prototype.trim] *)
Definition trim (s : string) : string := trimEnd (trimStart s).

(** [s.split(sep)] for a separator of one code unit: the pieces between the
    separators, in order; a string without separator is its only piece. *)
Fixpoint split (sep : ascii) (s : string) : list string :=
  match s with
  | EmptyString => [EmptyString]
  | String c s' =>
      if Ascii.eqb c sep then EmptyString :: split sep s'
      else match split sep s' with
           | [] => [String c EmptyString]
           | p :: ps => String c p :: ps
           end
  end.

(** [a.join(sep)] *)
Fixpoint join (sep : string) (a : list string) : string :=
  match a with
  | [] => EmptyString
  | [x] => x
  | x :: rest => x ++ sep ++ join sep rest
  end.

(** [s.endsWith(suffix)] *)
Definition endsWith (s suffix : string) : bool :=
  let n := String.length s in
  let m := String.length suffix in
  (m <=? n)%nat && String.eqb (substring (n - m) m s) suffix.

(** Index of the last occurrence of [c] in [s], counted from 0. *)
Fixpoint lastIndexOf (c : ascii) (s : string) : option nat :=
  match s with
  | EmptyString => None
  | String d s' =>
      match lastIndexOf c s' with
      | Some i => Some (S i)
      | None => if Ascii.eqb d c then Some 0 else None
      end
  end.

(** The path without the slashes it ends with. *)
Fixpoint dropSlashes (p : string) : string :=
  match p with
  | EmptyString => EmptyString
  | String c p' =>
      match dropSlashes p' with
      | EmptyString => if Ascii.eqb c "/" then EmptyString else String c EmptyString
      | t => String c t
      end
  end.

(** The last segment of a path, the slashes that end the path left out. *)
Definition basename (p : string) : string :=
  let p := dropSlashes p in
  match lastIndexOf "/"%char p with
  | Some i => substring (S i) (String.length p - S i) p
  | None => p
  end.

(** [path.extname]: from the last dot of the last path segment to the end;
    empty when there is no dot, when the only dot leads the segment, and for
    the segment [..]. *)
Definition extname (p : string) : string :=
  let b := basename p in
  if String.eqb b ".." then EmptyString
  else match lastIndexOf "."%char b with
       | Some (S i) => substring (S i) (String.length b - S i) b
       | _ => EmptyString
       end.

(** An array, empty or not, is an object, and every object is truthy. *)
Definition truthy_array {A : Type} (a : list A) : bool := true.

(** A string is truthy unless it is empty. *)
Definition truthy_string (s : string) : bool := negb (String.eqb s EmptyString).

End JS.

(** ** SHA-256 ([createHash("sha256").update(s).digest("hex")])

    Words are 32-bit integers in [Z], reduced modulo [2^32] after every
    addition. *)

Module Sha256.
Open Scope Z_scope.

Definition w32 (x : Z) : Z := x mod 2 ^ 32.
Definition add32 (x y : Z) : Z := w32 (x + y).
Definition rotr (n x : Z) : Z := w32 (Z.lor (Z.shiftr x n) (Z.shiftl x (32 - n))).
Definition Ch (x y z : Z) : Z := Z.lxor (Z.land x y) (Z.land (w32 (Z.lnot x)) z).
Definition Maj (x y z : Z) : Z :=
  Z.lxor (Z.lxor (Z.land x y) (Z.land x z)) (Z.land y z).
Definition Sigma0 (x : Z) : Z := Z.lxor (Z.lxor (rotr 2 x) (rotr 13 x)) (rotr 22 x).
Definition Sigma1 (x : Z) : Z := Z.lxor (Z.lxor (rotr 6 x) (rotr 11 x)) (rotr 25 x).
Definition sigma0 (x : Z) : Z := Z.lxor (Z.lxor (rotr 7 x) (rotr 18 x)) (Z.shiftr x 3).
Definition sigma1 (x : Z) : Z := Z.lxor (Z.lxor (rotr 17 x) (rotr 19 x)) (Z.shiftr x 10).

(** The constants are fractional parts of roots of the first primes. *)
Definition isPrime (n : Z) : bool :=
  forallb (fun d => negb (n mod Z.of_nat d =? 0)) (seq 2 (Z.to_nat n - 2)).

Definition primes : list Z := filter isPrime (map Z.of_nat (seq 2 310)).

(** The greatest [r] below [2 ^ bits] with [r ^ 3 <= n]. *)
Fixpoint cbrt (bits : nat) (n r : Z) : Z :=
  match bits with
  | O => r
  | S b =>
      let r' := r + 2 ^ Z.of_nat b in
      cbrt b n (if r' * r' * r' <=? n then r' else r)
  end.

(** First 32 bits of the fractional part of the cube root of each of the
    first 64 primes. *)
Definition K : list Z :=
  Eval vm_compute in map (fun p => w32 (cbrt 40 (Z.shiftl p 96) 0)) primes.

(** UTF-8 encoding of a string of code units below U+0100. *)
Fixpoint utf8 (s : string) : list Z :=
  match s with
  | EmptyString => []
  | String c s' =>
      let n := Z.of_nat (nat_of_ascii c) in
      if n <? 128 then n :: utf8 s'
      else Z.lor 0xC0 (Z.shiftr n 6) :: Z.lor 0x80 (Z.land n 0x3F) :: utf8 s'
  end.

(** Big-endian bytes of [x], [n] of them. *)
Fixpoint be_bytes (n : nat) (x : Z) : list Z :=
  match n with
  | O => []
  | S n' => Z.land (Z.shiftr x (8 * Z.of_nat n')) 0xFF :: be_bytes n' x
  end.

(** The message, a 1 bit, zeros up to 56 modulo 64 bytes, and the bit length
    on 64 bits. *)
Definition pad (msg : list Z) : list Z :=
  let len := Z.of_nat (List.length msg) in
  let zeros := Z.to_nat ((55 - len) mod 64) in
  (msg ++ [0x80] ++ repeat 0 zeros ++ be_bytes 8 (8 * len))%list.

Fixpoint words (n : nat) (bytes : list Z) : list Z :=
  match n, bytes with
  | S n', a :: b :: c :: d :: rest =>
      Z.lor (Z.shiftl a 24) (Z.lor (Z.shiftl b 16) (Z.lor (Z.shiftl c 8) d))
        :: words n' rest
  | _, _ => []
  end.

(** Message schedule: [fuel] more words after the window [w] of the last 16. *)
Fixpoint schedule (fuel : nat) (w : list Z) : list Z :=
  match fuel with
  | O => []
  | S fuel' =>
      let next :=
        add32 (add32 (sigma1 (nth 14 w 0)) (nth 9 w 0))
              (add32 (sigma0 (nth 1 w 0)) (nth 0 w 0)) in
      next :: schedule fuel' (tl w ++ [next])%list
  end.

Record regs : Type :=
  Regs { ra : Z; rb : Z; rc : Z; rd : Z; re : Z; rf : Z; rg : Z; rh : Z }.

(** First 32 bits of the fractional part of the square root of the [n]-th
    prime. *)
Definition root (n : nat) : Z := w32 (Z.sqrt (Z.shiftl (nth n primes 0) 64)).

Definition H0 : regs :=
  Eval vm_compute in
    Regs (root 0) (root 1) (root 2) (root 3) (root 4) (root 5) (root 6) (root 7).

Definition round (r : regs) (kw : Z * Z) : regs :=
  let t1 :=
    add32 (add32 (add32 (rh r) (Sigma1 (re r))) (Ch (re r) (rf r) (rg r)))
          (add32 (fst kw) (snd kw)) in
  let t2 := add32 (Sigma0 (ra r)) (Maj (ra r) (rb r) (rc r)) in
  Regs (add32 t1 t2) (ra r) (rb r) (rc r) (add32 (rd r) t1) (re r) (rf r) (rg r).

Definition compress (r : regs) (block : list Z) : regs :=
  let w := (block ++ schedule 48 block)%list in
  let r' := fold_left round (combine K w) r in
  Regs (add32 (ra r) (ra r')) (add32 (rb r) (rb r')) (add32 (rc r) (rc r'))
       (add32 (rd r) (rd r')) (add32 (re r) (re r')) (add32 (rf r) (rf r'))
       (add32 (rg r) (rg r')) (add32 (rh r) (rh r')).

Fixpoint blocks (n : nat) (ws : list Z) : list (list Z) :=
  match n with
  | O => []
  | S n' => firstn 16 ws :: blocks n' (skipn 16 ws)
  end.

Definition digest (msg : list Z) : list Z :=
  let bytes := pad msg in
  let ws := words (List.length bytes) bytes in
  let r :=
    fold_left compress (blocks (List.length ws / 16) ws) H0 in
  [ra r; rb r; rc r; rd r; re r; rf r; rg r; rh r].

Definition hexdigit (n : Z) : ascii :=
  if n <? 10 then ascii_of_nat (48 + Z.to_nat n) else ascii_of_nat (87 + Z.to_nat n).

Fixpoint hex (n : nat) (x : Z) : string :=
  match n with
  | O => EmptyString
  | S n' => String (hexdigit (Z.land (Z.shiftr x (4 * Z.of_nat n')) 0xF)) (hex n' x)
  end.

(** [createHash("sha256").update(s).digest("hex")] *)
Definition sha256hex (s : string) : string :=
  String.concat EmptyString (map (hex 8) (digest (utf8 s))).

End Sha256.

(** ** The data the command works on *)

(** An attachment option: [name] and [url]. *)
Record Attachment : Type := { name : string; url : string }.

(** What the command reads from the interaction. *)
Record Interaction : Type := {
  userId : string;                 (* interaction.user.id *)
  channelSendable : bool;          (* interaction.channel?.isSendable() *)
  audioOption : option Attachment; (* options.getAttachment("audio") *)
  imageOption : option Attachment; (* options.getAttachment("image") *)
  titleOption : option string;     (* options.getString("title") *)
  descriptionOption : option string;
  tagsOption : option string
}.

(** [config.js]: the two toggles, the feed channel and the site's URLs. *)
Record Config : Type := {
  canUseYoutube : bool;
  canUseSoundcloud : bool;
  feed : string;
  siteUrl : string -> string
}.

(** The custom ids of the two buttons ([randomUUID()] twice). *)
Record Ids : Type := { yes : string; no : string }.

(** A field of the multipart form sent to the site. *)
Inductive FormEntry : Type :=
| Field (key value : string)
| File (key path filename : string).

(** What the command does to the outside, one constructor per call. The
    calls whose failure the command has no branch for and that are not fetches,
    uploads or deletions of the prompt ([deferReply], [respond], [send],
    [followUp], [mkdir], [writeFile], [openAsBlob]) are taken to succeed. *)
Inductive Effect : Type :=
| DeferReply
| Respond (content : string) (ephemeral : bool)
| ChannelSend (content : string) (buttons : Ids)
| PromptDelete
| FollowUp (content : string) (ephemeral : bool)
| Mkdir (path : string)
| Fetch (target : string)
| WriteFile (path data : string)
| Exec (command : string)
| YoutubeUpload (title description : string) (tags : list string) (videoPath : string)
| SoundcloudUpload (title description : string) (tags : list string)
    (audioPath imagePath : string)
| FeedFetch (channel : string)
| FeedSend (content : string)
| OpenAsBlob (path : string)
| FetchHMAC (target method : string) (form : list FormEntry)
| Unlink (path : string)
| ConsoleError (message : string).

(** ** The answers of the outside world *)

(** [fetch] rejects on a network failure and resolves with the response
    whatever its status. *)
Inductive FetchResult : Type :=
| NetworkError (err : string)
| Response (status : nat) (body : string).

(** A settled promise; a rejection carries the text [`${err}`] renders. *)
Inductive Outcome (A : Type) : Type :=
| Resolves (a : A)
| Rejects (err : string).
Arguments Resolves {A} a.
Arguments Rejects {A} err.

(** What the encoder process hands to the callback of [exec]. *)
Inductive ExecResult : Type :=
| ExecOk
| ExecError (stderr : string).

(** The video resource [youtubeClient.upload] resolves with: [id],
    [status?.uploadStatus], and the text of [JSON.stringify(ytData, null, 2)]. *)
Record YtData : Type := {
  id : option string;
  uploadStatus : option string;
  json : string
}.

(** What arrives while the prompt is up. The deletions of the prompt are
    requests on one route, which the client sends one after the other: they
    settle in the order in which the listeners asked for them. *)
Inductive GateInput : Type :=
| Collect (user customId : string) (* a press on a component of the prompt *)
| DeleteSettled (ok : bool)        (* the oldest pending update.delete() settles *)
| TimeExpired.                     (* the 60000 ms of the collector are over *)

Record World : Type := {
  uuids : Ids;
  presses : list GateInput;
  audioFetch : FetchResult;
  imageFetch : FetchResult;
  ffmpeg : ExecResult;
  youtube : Outcome YtData;
  soundcloud : Outcome string;
  feedChannel : Outcome bool;      (* the feed channel, sendable or not *)
  site : Outcome unit
}.

(** ** Tags (lines 108-109) *)

Definition parseTags (tagsString : string) : list string :=
  if (String.length tagsString =? 0)%nat then []
  else map JS.trim (JS.split comma tagsString).

(** ** The confirmation gate (lines 150-172) *)

(** The resolution of the promise, by the call that resolved it:
    [resolve(true)] of the yes branch, [resolve(false)] of the no branch,
    [resolve(false)] of the end listener. *)
Inductive Resolution : Type := Confirmed | Declined | TimedOut.

(** The boolean the promise carries. *)
Definition result (r : Resolution) : bool :=
  match r with Confirmed => true | Declined | TimedOut => false end.

Module Gate.

Record t : Type := Make {
  timeout : bool;                (* let timeout = true *)
  ended : bool;                  (* the collector has ended *)
  resolved : option Resolution;  (* the promise *)
  pending : list Resolution;     (* listeners awaiting update.delete(), oldest first *)
  log : list Effect
}.

Definition init : t := Make true false None [] [].

Definition emit (e : Effect) (g : t) : t :=
  Make (timeout g) (ended g) (resolved g) (pending g) (log g ++ [e])%list.

(** [resolve(v)]: a promise keeps its first resolution. *)
Definition resolve (r : Resolution) (g : t) : t :=
  match resolved g with
  | Some _ => g
  | None => Make (timeout g) (ended g) (Some r) (pending g) (log g)
  end.

(** The [end] listener. *)
Definition onEnd (g : t) : t :=
  if timeout g
  then resolve TimedOut (emit (FollowUp "You took too long to respond" true) g)
  else g.

(** [confirmationCollector.stop()], and the collector's own timer: the
    collector ends once, and emits [end] when it does. *)
Definition stop (g : t) : t :=
  if ended g then g
  else onEnd (Make (timeout g) true (resolved g) (pending g) (log g)).

(** The [collect] listener, up to its [await update.delete()]. *)
Definition onCollect (ids : Ids) (customId : string) (g : t) : t :=
  let g := Make false (ended g) (resolved g) (pending g) (log g) in
  if String.eqb customId (yes ids) then
    emit PromptDelete
      (Make (timeout g) (ended g) (resolved g) (pending g ++ [Confirmed])%list (log g))
  else if String.eqb customId (no ids) then
    emit PromptDelete
      (Make (timeout g) (ended g) (resolved g) (pending g ++ [Declined])%list (log g))
  else g.

(** The rest of the oldest suspended listener: when the deletion succeeded,
    [confirmationCollector.stop(); resolve(...)]; when it failed the listener
    is left at its [await], which throws. *)
Definition resume (ok : bool) (g : t) : t :=
  match pending g with
  | [] => g
  | r :: rest =>
      let g := Make (timeout g) (ended g) (resolved g) rest (log g) in
      if ok then resolve r (stop g) else g
  end.

(** One input. An ended collector listens no more; the filter lets the
    requester's presses through. *)
Definition step (ids : Ids) (requester : string) (g : t) (e : GateInput) : t :=
  match e with
  | Collect user customId =>
      if ended g then g
      else if String.eqb user requester then onCollect ids customId g
      else g
  | DeleteSettled ok => resume ok g
  | TimeExpired => stop g
  end.

Definition run (ids : Ids) (requester : string) (g : t) (es : list GateInput) : t :=
  fold_left (step ids requester) es g.

End Gate.

(** ** Effects and early exits

    A computation performs effects and either goes on with a value or stops:
    by [return], by an exception nobody caught, or at an [await] that never
    settles. *)

Inductive Exit : Type :=
| Returned
| Threw (err : string)
| Suspended.

Inductive Step (A : Type) : Type :=
| Next (a : A)
| Stop (x : Exit).
Arguments Next {A} a.
Arguments Stop {A} x.

Definition M (A : Type) : Type := (list Effect * Step A)%type.

Definition ret {A : Type} (a : A) : M A := ([], Next a).

Definition bind {A B : Type} (m : M A) (k : A -> M B) : M B :=
  match m with
  | (l, Next a) => let (l', r) := k a in ((l ++ l')%list, r)
  | (l, Stop x) => (l, Stop x)
  end.

Notation "x <- m ;; k" := (bind m (fun x => k))
  (at level 61, m at next level, right associativity).
Notation "m ;; k" := (bind m (fun _ => k))
  (at level 61, right associativity).

Definition emit (e : Effect) : M unit := ([e], Next tt).
Definition emits (l : list Effect) : M unit := (l, Next tt).
Definition stop {A : Type} (x : Exit) : M A := ([], Stop x).

(** [await p] *)
Definition await {A : Type} (p : Outcome A) : M A :=
  match p with
  | Resolves a => ret a
  | Rejects err => stop (Threw err)
  end.

(** [try { m } catch (err) { h }] *)
Definition catch {A : Type} (m : M A) (h : string -> M A) : M A :=
  match m with
  | (l, Stop (Threw err)) => let (l', r) := h err in ((l ++ l')%list, r)
  | _ => m
  end.

Definition finish (m : M unit) : list Effect * Exit :=
  match m with
  | (l, Next _) => (l, Returned)
  | (l, Stop x) => (l, x)
  end.

(** ** Publishing (lines 14-58) *)

Record Urls : Type := { youtubeUrl : string; soundcloudUrl : string }.

Definition placeholder : string := "https://example.com/".

Definition fence (text : string) : string :=
  nl ++ "```" ++ nl ++ text ++ nl ++ "```".

(** Line 28: the description sent to YouTube. *)
Definition youtubeDescription (description : string) (tags : list string) : string :=
  description ++ nl ++ nl ++ "Tags: "
    ++ (if (0 <? List.length tags)%nat then JS.join ", " tags else "N/A").

(** Line 41: the description sent to SoundCloud. *)
Definition soundcloudDescription (description : string) (tags : list string) : string :=
  description ++ nl ++ nl ++ "Tags: "
    ++ (if JS.truthy_array tags then JS.join ", " tags else "N/A").

(** Lines 45-52. The request for the channel is made here; the promise is not
    awaited, so the message (or the line on the console) comes whenever the
    request settles, possibly after everything that follows in the run. The
    log has them at the place of the request: what is stated about the order
    of effects leaves the effects of the feed out. *)
Definition feedNotification (cfg : Config) (w : World) (i : Interaction)
    (title : string) (urls : Urls) : M unit :=
  emit (FeedFetch (feed cfg)) ;;
  match feedChannel w with
  | Resolves true =>
      emit (FeedSend ("Uploaded by <@" ++ userId i ++ ">" ++ nl ++ "Title: " ++ title
                      ++ nl ++ "YouTube: " ++ youtubeUrl urls
                      ++ nl ++ "SoundCloud: " ++ soundcloudUrl urls))
  | Resolves false =>
      emit (ConsoleError "Failed to send message to feed channel: Channel is not sendable")
  | Rejects err =>
      emit (ConsoleError ("Failed to send message to feed channel " ++ err))
  end.

Definition uploaded (ytData : YtData) : bool :=
  match uploadStatus ytData with
  | Some s => String.eqb s "uploaded"
  | None => false
  end.

Definition idText (ytData : YtData) : string :=
  match id ytData with
  | Some s => s
  | None => "undefined"
  end.

Definition uploadToYoutubeAndSoundcloud (cfg : Config) (w : World) (i : Interaction)
    (audioPath imagePath videoPath title description : string) (tags : list string)
    : M (option Urls) :=
  yt <- (if canUseYoutube cfg then
           emit (YoutubeUpload title (youtubeDescription description tags) tags videoPath) ;;
           ytData <- await (youtube w) ;;
           if uploaded ytData
           then ret (Some ("https://www.youtube.com/watch?v=" ++ idText ytData))
           else
             emit (Respond ("An error occurred while uploading the video"
                            ++ fence (json ytData)) true) ;;
             ret None
         else ret (Some placeholder)) ;;
  match yt with
  | None => ret None
  | Some youtubeUrl =>
      soundcloudUrl <-
        (if canUseSoundcloud cfg then
           emit (SoundcloudUpload title (soundcloudDescription description tags) tags
                   audioPath imagePath) ;;
           await (soundcloud w)
         else ret placeholder) ;;
      let urls := Build_Urls youtubeUrl soundcloudUrl in
      feedNotification cfg w i title urls ;;
      ret (Some urls)
  end.

(** ** The command (lines 95-247) *)

Definition prompt (title description : string) (tags : list string) : string :=
  "Title: " ++ title ++ nl
  ++ "Description: " ++ (if JS.truthy_string description then description else "N/A") ++ nl
  ++ "Tags: " ++ (if (0 <? List.length tags)%nat then JS.join ", " tags else "N/A")
  ++ nl ++ nl
  ++ "Note that if your image has a vertical (tall)/square aspect ratio, it may end up being uploaded as a short instead."
  ++ nl ++ "If you don't want, then ensure your image is wide" ++ nl ++ nl
  ++ "Is all of your information correct?".

(** Lines 182, 183 and 197. *)
Definition audioPath (audio : Attachment) : string :=
  "./.tmp/" ++ Sha256.sha256hex (url audio)
    ++ (if JS.endsWith (name audio) ".mp3" then ".mp3" else ".wav").

Definition imagePath (image : Attachment) : string :=
  "./.tmp/" ++ Sha256.sha256hex (url image)
    ++ (if JS.endsWith (name image) ".png" then ".png" else ".jpg").

Definition videoPath (i : Interaction) : string :=
  "./.tmp/" ++ userId i ++ ".mp4".

Definition ffmpegCommand (imagePath audioPath videoPath : string) : string :=
  "ffmpeg -loop 1 -i " ++ dquote ++ imagePath ++ dquote
  ++ " -i " ++ dquote ++ audioPath ++ dquote
  ++ " -vf " ++ dquote ++ "scale='min(1920, floor(iw/2)*2)':-2,format=yuv420p" ++ dquote
  ++ " -c:v libx264 -preset medium -profile:v main -c:a aac -shortest -movflags +faststart "
  ++ videoPath.

(** Lines 184-189: one fetch, then one write of whatever body came back. *)
Definition download (target path : string) (r : FetchResult) : M unit :=
  emit (Fetch target) ;;
  match r with
  | NetworkError err => stop (Threw err)
  | Response _ body => emit (WriteFile path body)
  end.

(** Lines 220-224: [Promise.allSettled] waits for the three and never rejects. *)
Definition deleteTemporaryFiles (cfg : Config) (audioPath imagePath videoPath : string)
    : M unit :=
  (if canUseYoutube cfg then emit (Unlink videoPath) else ret tt) ;;
  emit (Unlink audioPath) ;;
  emit (Unlink imagePath).

(** Lines 231-239. *)
Definition formData (title : string) (urls : Urls) (audioPath imagePath tagsString : string)
    : list FormEntry :=
  ([ Field "title" title;
     Field "soundcloudUrl" (soundcloudUrl urls);
     Field "youtubeUrl" (youtubeUrl urls);
     File "track" audioPath ("track" ++ JS.extname audioPath);
     File "cover" imagePath ("cover" ++ JS.extname imagePath) ]
   ++ (if JS.truthy_string tagsString then [Field "tags" tagsString] else []))%list.

(** Lines 198-246: the callback handed to [exec]. *)
Definition callback (cfg : Config) (w : World) (i : Interaction)
    (audioPath imagePath videoPath title description tagsString : string)
    (tags : list string) (r : ExecResult) : M unit :=
  match r with
  | ExecError stderr =>
      emit (Respond ("An error occurred while processing the files" ++ fence stderr) true) ;;
      stop Returned
  | ExecOk =>
      urls <- catch
                (uploadToYoutubeAndSoundcloud cfg w i audioPath imagePath videoPath
                   title description tags)
                (fun err =>
                   emit (Respond ("An error occurred while uploading the video"
                                  ++ fence err) true) ;;
                   stop Returned) ;;
      match urls with
      | None => deleteTemporaryFiles cfg audioPath imagePath videoPath
      | Some urls =>
          emit (OpenAsBlob audioPath) ;;
          emit (OpenAsBlob imagePath) ;;
          emit (FetchHMAC (siteUrl cfg "/api/sound") "POST"
                  (formData title urls audioPath imagePath tagsString)) ;;
          match site w with
          | Resolves _ =>
              emit (Respond ("Uploaded to YouTube: " ++ youtubeUrl urls ++ nl
                             ++ "Uploaded to SoundCloud: " ++ soundcloudUrl urls) false)
          | Rejects err =>
              emit (Respond ("An error occurred while uploading the song" ++ fence err) true)
          end ;;
          deleteTemporaryFiles cfg audioPath imagePath videoPath
      end
  end.

(** Lines 191-198: [exec] when the video target is enabled, [fakeExec], which
    calls back at once with no error, when it is not. *)
Definition transcode (cfg : Config) (w : World) (i : Interaction)
    (audioPath imagePath videoPath title description tagsString : string)
    (tags : list string) : M unit :=
  r <- (if canUseYoutube cfg then
          emit (Exec (ffmpegCommand imagePath audioPath videoPath)) ;;
          ret (ffmpeg w)
        else ret ExecOk) ;;
  callback cfg w i audioPath imagePath videoPath title description tagsString tags r.

(** Lines 179-246: what follows a confirmation. *)
Definition pipeline (cfg : Config) (w : World) (i : Interaction)
    (audio image : Attachment) (title description tagsString : string)
    (tags : list string) : M unit :=
  emit (Mkdir ".tmp") ;;
  download (url audio) (audioPath audio) (audioFetch w) ;;
  download (url image) (imagePath image) (imageFetch w) ;;
  transcode cfg w i (audioPath audio) (imagePath image) (videoPath i)
    title description tagsString tags.

(** Lines 150-177: the promise of the gate and the test of its result. What
    the listeners of the gate do is logged before what follows the
    resolution. *)
Definition confirmation (w : World) (i : Interaction) : Gate.t :=
  Gate.run (uuids w) (userId i) Gate.init (presses w).

Definition gated (w : World) (i : Interaction) (confirmed : M unit) : M unit :=
  let g := confirmation w i in
  emits (Gate.log g) ;;
  match Gate.resolved g with
  | None => stop Suspended
  | Some r =>
      if result r then confirmed
      else emit (Respond "Cancelled" true) ;; stop Returned
  end.

Definition orElse (o : option string) (d : string) : string :=
  match o with
  | Some s => s
  | None => d
  end.

(** Line 107: [getString("description") || ""]. *)
Definition descriptionOf (i : Interaction) : string :=
  let d := orElse (descriptionOption i) EmptyString in
  if JS.truthy_string d then d else EmptyString.

(** Line 108: [getString("tags") ?? ""]. *)
Definition tagsStringOf (i : Interaction) : string :=
  orElse (tagsOption i) EmptyString.

Definition command (cfg : Config) (w : World) (i : Interaction) : M unit :=
  emit DeferReply ;;
  if negb (channelSendable i) then
    emit (Respond "I cannot send messages in this channel" true)
  else
    let description := descriptionOf i in
    let tagsString := tagsStringOf i in
    let tags := parseTags tagsString in
    match audioOption i, imageOption i, titleOption i with
    | Some audio, Some image, Some title =>
        if negb (JS.endsWith (name audio) ".mp3") && negb (JS.endsWith (name audio) ".wav")
        then emit (Respond "The audio file must be an mp3 or wav file" true)
        else if negb (JS.endsWith (name image) ".png") && negb (JS.endsWith (name image) ".jpg")
        then emit (Respond "The image file must be a png or jpg file" true)
        else
          emit (ChannelSend (prompt title description tags) (uuids w)) ;;
          gated w i (pipeline cfg w i audio image title description tagsString tags)
    | _, _, _ =>
        emit (Respond "You must provide both an audio and image file, and a title" true)
    end.

(** [run]: the effects of one invocation, in order, and how it ends. *)
Definition run (cfg : Config) (w : World) (i : Interaction) : list Effect * Exit :=
  finish (command cfg w i).

Definition trace (cfg : Config) (w : World) (i : Interaction) : list Effect :=
  fst (run cfg w i).

(** ** Specification vocabulary for strings *)

Fixpoint allWhite (s : string) : bool :=
  match s with
  | EmptyString => true
  | String c s' => JS.isWhiteSpace c && allWhite s'
  end.

Definition startsWhite (s : string) : bool :=
  match s with
  | EmptyString => false
  | String c _ => JS.isWhiteSpace c
  end.

Fixpoint endsWhite (s : string) : bool :=
  match s with
  | EmptyString => false
  | String c EmptyString => JS.isWhiteSpace c
  | String _ s' => endsWhite s'
  end.

Fixpoint contains (c : ascii) (s : string) : bool :=
  match s with
  | EmptyString => false
  | String d s' => Ascii.eqb d c || contains c s'
  end.

(** An entry of a tag field: a string without comma. *)
Definition entry (s : string) : Prop := contains comma s = false.

(** ** Specification vocabulary for the gate *)

(** What the first press the filter lets through selects, when it comes
    before the collector's time is over; [TimedOut] when none does. *)
Fixpoint firstMatch (ids : Ids) (requester : string) (es : list GateInput) : Resolution :=
  match es with
  | [] => TimedOut
  | Collect user customId :: es' =>
      if String.eqb user requester
      then (if String.eqb customId (yes ids) then Confirmed else Declined)
      else firstMatch ids requester es'
  | DeleteSettled _ :: es' => firstMatch ids requester es'
  | TimeExpired :: _ => TimedOut
  end.

(** The time is over before any press of the requester. *)
Fixpoint unanswered (requester : string) (es : list GateInput) : bool :=
  match es with
  | [] => false
  | Collect user _ :: es' => negb (String.eqb user requester) && unanswered requester es'
  | DeleteSettled _ :: es' => unanswered requester es'
  | TimeExpired :: _ => true
  end.

(** The gate has come to rest: the collector has ended and no listener waits
    for a deletion. *)
Definition atRest (g : Gate.t) : Prop :=
  Gate.ended g = true /\ Gate.pending g = [].

(** Whoever resolves the promise has ended the collector first. *)
Definition settled (g : Gate.t) : Prop :=
  Gate.resolved g <> None -> Gate.ended g = true.

(** An effect other than a line on the console. *)
Definition quiet (e : Effect) : Prop :=
  match e with ConsoleError _ => False | _ => True end.

(** The requester has pressed: the flag is down, and neither the promise nor a
    waiting listener carries [TimedOut]. *)
Definition pressed (g : Gate.t) : Prop :=
  Gate.timeout g = false
  /\ Gate.resolved g <> Some TimedOut
  /\ ~ In TimedOut (Gate.pending g).

(** ** Specification vocabulary for the command *)

(** The request passes the checks of lines 98 to 126. *)
Definition accepted (i : Interaction) (audio image : Attachment) (title : string) : Prop :=
  channelSendable i = true
  /\ audioOption i = Some audio /\ imageOption i = Some image /\ titleOption i = Some title
  /\ (JS.endsWith (name audio) ".mp3" || JS.endsWith (name audio) ".wav") = true
  /\ (JS.endsWith (name image) ".png" || JS.endsWith (name image) ".jpg") = true.

(** What the command does up to and including the prompt. *)
Definition prelude (w : World) (i : Interaction) (title : string) : list Effect :=
  [DeferReply; ChannelSend (prompt title (descriptionOf i) (parseTags (tagsStringOf i))) (uuids w)].

Fixpoint fetched (l : list Effect) : list string :=
  match l with
  | [] => []
  | Fetch target :: l' => target :: fetched l'
  | _ :: l' => fetched l'
  end.

Fixpoint written (l : list Effect) : list string :=
  match l with
  | [] => []
  | WriteFile path _ :: l' => path :: written l'
  | _ :: l' => written l'
  end.

Fixpoint unlinked (l : list Effect) : list string :=
  match l with
  | [] => []
  | Unlink path :: l' => path :: unlinked l'
  | _ :: l' => unlinked l'
  end.

(** Calls of the audio platform. *)
Fixpoint soundcloudCalls (l : list Effect) : list Effect :=
  match l with
  | [] => []
  | SoundcloudUpload t d tags a im :: l' => SoundcloudUpload t d tags a im :: soundcloudCalls l'
  | _ :: l' => soundcloudCalls l'
  end.

(** Calls of the encoder and of the video platform. *)
Definition video (e : Effect) : bool :=
  match e with
  | Exec _ | YoutubeUpload _ _ _ _ => true
  | _ => false
  end.

(** The stages after the downloads: encoder, platforms, feed, site. *)
Definition laterStage (e : Effect) : bool :=
  match e with
  | Exec _ | YoutubeUpload _ _ _ _ | SoundcloudUpload _ _ _ _ _
  | FeedFetch _ | FeedSend _ | OpenAsBlob _ | FetchHMAC _ _ _ => true
  | _ => false
  end.

(** Network and file system, the messages of the chat apart. *)
Definition outside (e : Effect) : bool :=
  match e with
  | Mkdir _ | Fetch _ | WriteFile _ _ | Unlink _ => true
  | _ => laterStage e
  end.

(** What the gate itself does: deletions of the prompt and follow-ups. *)
Definition ofGate (e : Effect) : Prop :=
  match e with
  | PromptDelete | FollowUp _ _ => True
  | _ => False
  end.

(** The video platform does not report success: its call fails, or the status
    of what it returns is not [uploaded]. *)
Definition videoNotUploaded (w : World) : Prop :=
  match youtube w with
  | Resolves ytData => uploaded ytData = false
  | Rejects _ => True
  end.

(** The video files handed to the video platform. *)
Fixpoint videoUploads (l : list Effect) : list string :=
  match l with
  | [] => []
  | YoutubeUpload _ _ _ path :: l' => path :: videoUploads l'
  | _ :: l' => videoUploads l'
  end.

(** ** Sample data *)

Definition sampleIds : Ids := {| yes := "3f2c"; no := "9b1e" |}.

Definition sampleConfig : Config :=
  {| canUseYoutube := true; canUseSoundcloud := true; feed := "1100";
     siteUrl := fun path => "https://site.example" ++ path |}.

Definition sampleAudio : Attachment :=
  {| name := "song.mp3"; url := "https://cdn.example/a.mp3" |}.

Definition sampleImage : Attachment :=
  {| name := "cover.png"; url := "https://cdn.example/c.png" |}.

Definition sampleRequest : Interaction :=
  {| userId := "42"; channelSendable := true;
     audioOption := Some sampleAudio; imageOption := Some sampleImage;
     titleOption := Some "Test Song"; descriptionOption := None;
     tagsOption := Some "a, b" |}.

(** The same request without tags. *)
Definition untaggedRequest : Interaction :=
  {| userId := "42"; channelSendable := true;
     audioOption := Some sampleAudio; imageOption := Some sampleImage;
     titleOption := Some "Test Song"; descriptionOption := None;
     tagsOption := None |}.

Definition sampleVideo : YtData :=
  {| id := Some "dQw4"; uploadStatus := Some "uploaded"; json := "{}" |}.

(** The requester presses Yes and everything succeeds. *)
Definition sampleWorld : World :=
  {| uuids := sampleIds;
     presses := [Collect "42" "3f2c"; DeleteSettled true];
     audioFetch := Response 200 "AUDIO";
     imageFetch := Response 200 "IMAGE";
     ffmpeg := ExecOk;
     youtube := Resolves sampleVideo;
     soundcloud := Resolves "https://soundcloud.example/t";
     feedChannel := Resolves true;
     site := Resolves tt |}.

(** Variations of a world, one answer changed. *)

Definition withPresses (es : list GateInput) (w : World) : World :=
  {| uuids := uuids w; presses := es; audioFetch := audioFetch w;
     imageFetch := imageFetch w; ffmpeg := ffmpeg w; youtube := youtube w;
     soundcloud := soundcloud w; feedChannel := feedChannel w; site := site w |}.

Definition withAudioFetch (r : FetchResult) (w : World) : World :=
  {| uuids := uuids w; presses := presses w; audioFetch := r;
     imageFetch := imageFetch w; ffmpeg := ffmpeg w; youtube := youtube w;
     soundcloud := soundcloud w; feedChannel := feedChannel w; site := site w |}.

Definition withImageFetch (r : FetchResult) (w : World) : World :=
  {| uuids := uuids w; presses := presses w; audioFetch := audioFetch w;
     imageFetch := r; ffmpeg := ffmpeg w; youtube := youtube w;
     soundcloud := soundcloud w; feedChannel := feedChannel w; site := site w |}.

Definition withFfmpeg (r : ExecResult) (w : World) : World :=
  {| uuids := uuids w; presses := presses w; audioFetch := audioFetch w;
     imageFetch := imageFetch w; ffmpeg := r; youtube := youtube w;
     soundcloud := soundcloud w; feedChannel := feedChannel w; site := site w |}.

Definition withYoutube (r : Outcome YtData) (w : World) : World :=
  {| uuids := uuids w; presses := presses w; audioFetch := audioFetch w;
     imageFetch := imageFetch w; ffmpeg := ffmpeg w; youtube := r;
     soundcloud := soundcloud w; feedChannel := feedChannel w; site := site w |}.

Definition withSoundcloud (r : Outcome string) (w : World) : World :=
  {| uuids := uuids w; presses := presses w; audioFetch := audioFetch w;
     imageFetch := imageFetch w; ffmpeg := ffmpeg w; youtube := youtube w;
     soundcloud := r; feedChannel := feedChannel w; site := site w |}.

(** A configuration with the video target switched on or off. *)
Definition videoTarget (b : bool) (cfg : Config) : Config :=
  {| canUseYoutube := b; canUseSoundcloud := canUseSoundcloud cfg;
     feed := feed cfg; siteUrl := siteUrl cfg |}.

(** A video the platform did not take. *)
Definition refusedVideo : YtData :=
  {| id := Some "dQw4"; uploadStatus := Some "rejected";
     json := "{ status: { uploadStatus: rejected } }" |}.

(** Another request of the same requester, with other files. *)
Definition otherRequest : Interaction :=
  {| userId := "42"; channelSendable := true;
     audioOption := Some {| name := "b-side.wav"; url := "https://cdn.example/b.wav" |};
     imageOption := Some {| name := "back.jpg"; url := "https://cdn.example/d.jpg" |};
     titleOption := Some "B-side"; descriptionOption := Some "demo";
     tagsOption := None |}.

(** ** Further vocabulary *)

(** A digit of lower-case hexadecimal. *)
Definition isHexDigit (c : ascii) : bool :=
  let n := nat_of_ascii c in
  (((48 <=? n) && (n <=? 57)) || ((97 <=? n) && (n <=? 102)))%nat.

Fixpoint allHex (s : string) : bool :=
  match s with
  | EmptyString => true
  | String c s' => isHexDigit c && allHex s'
  end.

(** A press of somebody other than the requester. *)
Definition foreign (requester : string) (e : GateInput) : bool :=
  match e with
  | Collect user _ => negb (String.eqb user requester)
  | _ => false
  end.

Definition withFeedChannel (r : Outcome bool) (w : World) : World :=
  {| uuids := uuids w; presses := presses w; audioFetch := audioFetch w;
     imageFetch := imageFetch w; ffmpeg := ffmpeg w; youtube := youtube w;
     soundcloud := soundcloud w; feedChannel := r; site := site w |}.

Definition withSite (r : Outcome unit) (w : World) : World :=
  {| uuids := uuids w; presses := presses w; audioFetch := audioFetch w;
     imageFetch := imageFetch w; ffmpeg := ffmpeg w; youtube := youtube w;
     soundcloud := soundcloud w; feedChannel := feedChannel w; site := r |}.

(** An effect of the notification of the feed: the request for the channel,
    the message, or the line on the console. *)
Definition ofFeed (e : Effect) : bool :=
  match e with
  | FeedFetch _ | FeedSend _ | ConsoleError _ => true
  | _ => false
  end.

(** The three phases of a gate: nothing has happened yet; the end listener has
    resolved it; the requester has pressed. *)
Definition idle (g : Gate.t) : Prop :=
  Gate.timeout g = true /\ Gate.ended g = false /\ Gate.resolved g = None
  /\ Gate.pending g = [] /\ Gate.log g = [].

Definition expired (g : Gate.t) : Prop :=
  Gate.resolved g = Some TimedOut /\ Gate.ended g = true /\ Gate.pending g = []
  /\ Gate.log g = [FollowUp "You took too long to respond" true].

Definition answered (g : Gate.t) : Prop :=
  pressed g
  /\ Forall (eq PromptDelete) (Gate.log g)
  /\ (Gate.resolved g <> None \/ Gate.pending g <> [] -> Gate.log g <> []).

Definition phase (g : Gate.t) : Prop := idle g \/ expired g \/ answered g.

(** The submission to the site: the two files read back and the request. *)
Definition ofSubmission (e : Effect) : bool :=
  match e with
  | OpenAsBlob _ | FetchHMAC _ _ _ => true
  | _ => false
  end.

(** The answers given to the requester through [respond]. *)
Fixpoint responses (l : list Effect) : list (string * bool) :=
  match l with
  | [] => []
  | Respond content ephemeral :: l' => (content, ephemeral) :: responses l'
  | _ :: l' => responses l'
  end.

(** The calls a run is to make once at most, each with a number of its own;
    [0] for the rest. *)
Definition once (e : Effect) : nat :=
  match e with
  | DeferReply => 1
  | ChannelSend _ _ => 2
  | Mkdir _ => 3
  | Exec _ => 4
  | YoutubeUpload _ _ _ _ => 5
  | SoundcloudUpload _ _ _ _ _ => 6
  | FeedFetch _ => 7
  | FetchHMAC _ _ _ => 8
  | _ => 0
  end.

Definition onceCalls (l : list Effect) : list nat :=
  filter (fun n => negb (n =? 0)%nat) (map once l).

(** No number occurs twice. *)
Fixpoint distinctb (l : list nat) : bool :=
  match l with
  | [] => true
  | x :: l' => negb (existsb (Nat.eqb x) l') && distinctb l'
  end.

(** The outcome of the first deletion of the prompt to settle. *)
Fixpoint firstDeletion (es : list GateInput) : option bool :=
  match es with
  | [] => None
  | DeleteSettled ok :: _ => Some ok
  | _ :: es' => firstDeletion es'
  end.

(** The time is over before any press of the requester; or the first press of
    the requester is on one of the two buttons and the deletion it asks for,
    which is the first to settle after it, succeeds. *)
Fixpoint decided (ids : Ids) (requester : string) (es : list GateInput) : bool :=
  match es with
  | [] => false
  | Collect user customId :: es' =>
      if String.eqb user requester
      then (String.eqb customId (yes ids) || String.eqb customId (no ids))
           && match firstDeletion es' with
              | Some true => true
              | _ => false
              end
      else decided ids requester es'
  | DeleteSettled _ :: es' => decided ids requester es'
  | TimeExpired :: _ => true
  end.

(* ================================================================== *)
(** * Properties *)

(** Known digests. *)

Example sha256_abc :
  Sha256.sha256hex "abc"
  = "ba7816bf8f01cfea414140de5dae2223b00361a396177a9cb410ff61f20015ad".
Proof. vm_compute. reflexivity. Qed.

Example sha256_url :
  Sha256.sha256hex "https://cdn.example/a.mp3"
  = "7e266209227cbde4f0d4b0c9c2322489c7ba0c1f80a58af2201c31c437148ab7".
Proof. vm_compute. reflexivity. Qed.

Example sha256_two_blocks :
  Sha256.sha256hex "aaaaaaaaaaaaaaaaaaaaaaaaaaaaaaaaaaaaaaaaaaaaaaaaaaaaaaaaaaaaaaaaaaaaaa"
  = "6bd5e5034855a11241f0dee8fc72850ffd9955b28347a86428b5fa19119f6ad0".
Proof. vm_compute. reflexivity. Qed.

Example sha256_latin1 :
  Sha256.sha256hex (String (ascii_of_nat 233) EmptyString)
  = "4a99557e4033c3539de2eb65472017cad5f9557f7a0625a09f1c3f6e2ba69c4c".
Proof. vm_compute. reflexivity. Qed.

(** ** Strings *)

Section Strings.

Lemma trimStart_spec (s : string) :
  exists l, s = l ++ JS.trimStart s /\ allWhite l = true
            /\ startsWhite (JS.trimStart s) = false.
Proof.
  induction s as [|c s (l & Hs & Hl & Hst)]; simpl.
  - exists EmptyString. auto.
  - destruct (JS.isWhiteSpace c) eqn:Hc.
    + exists (String c l). simpl. rewrite Hc, Hl. repeat split; auto.
      now rewrite Hs at 1.
    + exists EmptyString. simpl. auto.
Qed.

Lemma trimEnd_spec (s : string) :
  exists r, s = JS.trimEnd s ++ r /\ allWhite r = true
            /\ endsWhite (JS.trimEnd s) = false.
Proof.
  induction s as [|c s (r & Hs & Hr & He)]; simpl.
  - exists EmptyString. auto.
  - destruct (JS.trimEnd s) as [|d t] eqn:Ht.
    + destruct (JS.isWhiteSpace c) eqn:Hc.
      * exists (String c r). simpl in *. rewrite Hc, Hr. repeat split; auto.
        now rewrite Hs at 1.
      * exists r. simpl in *. rewrite Hc. repeat split; auto. now rewrite Hs at 1.
    + exists r. repeat split; auto. simpl. now rewrite Hs at 1.
Qed.

Lemma trimEnd_startsWhite (s : string) :
  startsWhite s = false -> startsWhite (JS.trimEnd s) = false.
Proof.
  destruct s as [|c s]; simpl; [reflexivity|]. intros Hc.
  destruct (JS.trimEnd s); [rewrite Hc|]; simpl; auto.
Qed.

(** [trim] removes white space at both ends and nothing else. *)
Lemma trim_spec (s : string) :
  exists l r, s = l ++ JS.trim s ++ r
              /\ allWhite l = true /\ allWhite r = true
              /\ startsWhite (JS.trim s) = false /\ endsWhite (JS.trim s) = false.
Proof.
  unfold JS.trim.
  destruct (trimStart_spec s) as (l & Hs & Hl & Hst).
  destruct (trimEnd_spec (JS.trimStart s)) as (r & Hs' & Hr & He).
  exists l, r. repeat split; auto.
  - rewrite <- Hs'. exact Hs.
  - now apply trimEnd_startsWhite.
Qed.

Lemma split_entry (x : string) : entry x -> JS.split comma x = [x].
Proof.
  unfold entry. induction x as [|c x IH]; simpl; [reflexivity|].
  intros H. apply orb_false_iff in H as [Hc Hx]. rewrite Hc, (IH Hx). reflexivity.
Qed.

Lemma split_entry_cons (x rest : string) :
  entry x -> JS.split comma (x ++ String comma rest) = x :: JS.split comma rest.
Proof.
  unfold entry. induction x as [|c x IH]; simpl.
  - intros _. reflexivity.
  - intros H. apply orb_false_iff in H as [Hc Hx]. rewrite Hc, (IH Hx). reflexivity.
Qed.

(** Splitting undoes joining with commas. *)
Lemma split_join (e : string) (es : list string) :
  Forall entry (e :: es) ->
  JS.split comma (JS.join (String comma EmptyString) (e :: es)) = e :: es.
Proof.
  revert e. induction es as [|e' es IH]; intros e H.
  - simpl. apply split_entry. now inversion H.
  - inversion H as [|? ? He Hes]; subst.
    change (JS.join (String comma EmptyString) (e :: e' :: es))
      with (e ++ String comma (JS.join (String comma EmptyString) (e' :: es))).
    rewrite split_entry_cons by exact He. now rewrite IH.
Qed.

(** Joining undoes splitting, and the pieces hold no comma. *)
Lemma join_split (s : string) :
  JS.join (String comma EmptyString) (JS.split comma s) = s
  /\ Forall entry (JS.split comma s) /\ JS.split comma s <> [].
Proof.
  induction s as [|c s (Hj & He & Hn)]; simpl.
  - repeat split; [repeat constructor | discriminate].
  - destruct (Ascii.eqb c comma) eqn:Hc.
    + apply Ascii.eqb_eq in Hc. subst c. repeat split; try discriminate.
      * destruct (JS.split comma s) as [|p ps] eqn:Hsp; [contradiction|].
        simpl in *. now rewrite Hj.
      * constructor; [reflexivity | exact He].
    + destruct (JS.split comma s) as [|p ps] eqn:Hsp; [contradiction|].
      repeat split; try discriminate.
      * destruct ps; simpl in *; now rewrite <- Hj.
      * inversion He; subst. constructor; [|assumption].
        unfold entry in *. simpl. now rewrite Hc.
Qed.

End Strings.

(** ** Suffixes and substrings *)

Lemma length_append (a b : string) :
  String.length (a ++ b) = String.length a + String.length b.
Proof. induction a as [|c a IH]; simpl; [reflexivity | now rewrite IH]. Qed.

Lemma substring_whole (s : string) : substring 0 (String.length s) s = s.
Proof. induction s as [|c s IH]; simpl; [reflexivity | now rewrite IH]. Qed.

Lemma substring_suffix (p s : string) :
  substring (String.length p) (String.length s) (p ++ s) = s.
Proof. induction p as [|c p IH]; simpl; [apply substring_whole | exact IH]. Qed.

Lemma substring_split (s : string) :
  forall k : nat, k <= String.length s ->
    s = substring 0 k s ++ substring k (String.length s - k) s.
Proof.
  induction s as [|c s IH]; intros k Hk.
  - destruct k; reflexivity.
  - destruct k as [|k]; simpl.
    + now rewrite substring_whole.
    + simpl in Hk. rewrite <- IH by lia. reflexivity.
Qed.

(** [endsWith] holds exactly of the strings that are a stem followed by the
    suffix. *)
Lemma endsWith_iff (s suffix : string) :
  JS.endsWith s suffix = true <-> exists stem, s = stem ++ suffix.
Proof.
  unfold JS.endsWith. split.
  - intros H. apply andb_true_iff in H as [Hle Heq].
    apply Nat.leb_le in Hle. apply String.eqb_eq in Heq.
    exists (substring 0 (String.length s - String.length suffix) s).
    pose proof (substring_split s (String.length s - String.length suffix)) as Hs.
    replace (String.length s - (String.length s - String.length suffix))
      with (String.length suffix) in Hs by lia.
    rewrite Heq in Hs. apply Hs. lia.
  - intros [stem ->]. rewrite length_append.
    replace (String.length stem + String.length suffix - String.length suffix)
      with (String.length stem) by lia.
    rewrite substring_suffix, String.eqb_refl.
    apply andb_true_iff. split; [apply Nat.leb_le; lia | reflexivity].
Qed.

Lemma contains_append (c : ascii) (a b : string) :
  contains c (a ++ b) = contains c a || contains c b.
Proof.
  induction a as [|d a IH]; simpl; [reflexivity|]. rewrite IH. apply orb_assoc.
Qed.

Lemma lastIndexOf_absent (c : ascii) (s : string) :
  contains c s = false -> JS.lastIndexOf c s = None.
Proof.
  induction s as [|d s IH]; simpl; [reflexivity|]. intros H.
  apply orb_false_iff in H as [Hd Hs]. now rewrite (IH Hs), Hd.
Qed.

Lemma lastIndexOf_append (c : ascii) (a b : string) (j : nat) :
  JS.lastIndexOf c b = Some j ->
  JS.lastIndexOf c (a ++ b) = Some (String.length a + j).
Proof.
  intros H. induction a as [|d a IH]; simpl; [exact H | now rewrite IH].
Qed.

Lemma allHex_contains (c : ascii) (s : string) :
  isHexDigit c = false -> allHex s = true -> contains c s = false.
Proof.
  intros Hc. induction s as [|d s IH]; simpl; [reflexivity|]. intros H.
  apply andb_true_iff in H as [Hd Hs]. rewrite (IH Hs), orb_false_r.
  destruct (Ascii.eqb_spec d c); [subst; congruence | reflexivity].
Qed.

Lemma allHex_append (a b : string) : allHex (a ++ b) = allHex a && allHex b.
Proof.
  induction a as [|d a IH]; simpl; [reflexivity|]. rewrite IH. apply andb_assoc.
Qed.

Lemma lastIndexOf_append_absent (c : ascii) (a b : string) :
  JS.lastIndexOf c b = None -> JS.lastIndexOf c (a ++ b) = JS.lastIndexOf c a.
Proof.
  intros H. induction a as [|d a IH]; simpl; [exact H | now rewrite IH].
Qed.

Lemma dropSlashes_none (s : string) :
  contains "/"%char s = false -> JS.dropSlashes s = s.
Proof.
  induction s as [|c s IH]; simpl; [reflexivity|]. intros H.
  apply orb_false_iff in H as [Hc Hs]. rewrite (IH Hs), Hc. now destruct s.
Qed.

Lemma dropSlashes_append (a b : string) :
  contains "/"%char b = false -> b <> EmptyString -> JS.dropSlashes (a ++ b) = a ++ b.
Proof.
  intros Hb Hne. induction a as [|c a IH]; simpl; [now apply dropSlashes_none|].
  rewrite IH. destruct (a ++ b) eqn:E; [|reflexivity].
  destruct a; simpl in E; [contradiction | discriminate].
Qed.

(** The extension of a scratch path is what follows the digest, when that
    starts with its only dot and holds no slash. *)
Lemma extname_scratch (h ext : string) :
  String.length h = 64 -> allHex h = true ->
  JS.lastIndexOf "."%char ext = Some 0 -> contains "/"%char ext = false ->
  JS.extname ("./.tmp/" ++ h ++ ext) = ext.
Proof.
  intros Hl Hh Hdot Hslash.
  assert (Hs : contains "/"%char (h ++ ext) = false).
  { rewrite contains_append, Hslash, orb_false_r. now apply allHex_contains. }
  assert (Hb : JS.basename ("./.tmp/" ++ h ++ ext) = h ++ ext).
  { unfold JS.basename.
    rewrite dropSlashes_append;
      [|exact Hs | intros H; apply (f_equal String.length) in H;
                   rewrite length_append, Hl in H; discriminate].
    cbv zeta. rewrite lastIndexOf_append_absent by (now apply lastIndexOf_absent).
    change (JS.lastIndexOf "/" "./.tmp/") with (Some 6).
    rewrite length_append.
    change (String.length "./.tmp/") with 7.
    replace (7 + String.length (h ++ ext) - 7) with (String.length (h ++ ext)) by lia.
    apply (substring_suffix "./.tmp/"). }
  unfold JS.extname. rewrite Hb. cbv zeta.
  assert (Hne : String.eqb (h ++ ext) ".." = false).
  { apply String.eqb_neq. intros H. apply (f_equal String.length) in H.
    rewrite length_append, Hl in H. simpl in H. lia. }
  rewrite Hne, (lastIndexOf_append _ h ext 0 Hdot), Hl. simpl Nat.add.
  rewrite length_append, Hl.
  replace (64 + String.length ext - 64) with (String.length ext) by lia.
  rewrite <- Hl. apply substring_suffix.
Qed.

(** ** Tags *)

Lemma parseTags_nonempty (s : string) :
  s <> EmptyString -> parseTags s = map JS.trim (JS.split comma s).
Proof. destruct s; [contradiction | reflexivity]. Qed.

(** C4, as stated, fails: a field of white space only yields one empty tag, and
    an empty entry between two commas is kept. *)
Lemma parseTags_keeps_empty_entries :
  parseTags " " = [EmptyString]
  /\ parseTags " " <> []
  /\ parseTags "a,,b" = ["a"; EmptyString; "b"].
Proof. repeat split; try reflexivity. discriminate. Qed.

(** C4, amended: the empty field yields no tag; a field that is not empty
    yields one tag per comma-separated entry, in the order of the field, each
    with the white space at its two ends removed and nothing else; no entry is
    dropped, so an entry of white space only yields an empty tag. *)
Theorem parseTags_entries :
  parseTags EmptyString = []
  /\ (forall s : string, s <> EmptyString ->
        exists es : list string,
          Forall entry es
          /\ s = JS.join (String comma EmptyString) es
          /\ parseTags s = map JS.trim es)
  /\ (forall (e : string) (es : list string),
        Forall entry (e :: es) ->
        JS.join (String comma EmptyString) (e :: es) <> EmptyString ->
        parseTags (JS.join (String comma EmptyString) (e :: es)) = map JS.trim (e :: es))
  /\ (forall e : string,
        exists l r : string,
          e = l ++ JS.trim e ++ r
          /\ allWhite l = true /\ allWhite r = true
          /\ startsWhite (JS.trim e) = false /\ endsWhite (JS.trim e) = false).
Proof.
  split; [reflexivity|]. split; [|split].
  - intros s Hs. exists (JS.split comma s).
    destruct (join_split s) as (Hj & He & _).
    split; [exact He|]. split; [now rewrite Hj|].
    now apply parseTags_nonempty.
  - intros e es He Hne.
    rewrite parseTags_nonempty by exact Hne.
    now rewrite split_join by exact He.
  - exact trim_spec.
Qed.

Lemma parseTags_entries_witness :
  parseTags " rock ,, lo-fi" = ["rock"; EmptyString; "lo-fi"].
Proof.
  apply (proj1 (proj2 (proj2 parseTags_entries)) " rock " [EmptyString; " lo-fi"]).
  - repeat constructor.
  - discriminate.
Defined.

(** ** The confirmation gate *)

Section GateFacts.

Variable ids : Ids.
Variable requester : string.

Local Abbreviation step := (Gate.step ids requester).
Local Abbreviation run := (Gate.run ids requester).

Lemma run_cons (g : Gate.t) (e : GateInput) (es : list GateInput) :
  run g (e :: es) = run (step g e) es.
Proof. reflexivity. Qed.

Lemma run_app (g : Gate.t) (es es' : list GateInput) :
  run g (es ++ es') = run (run g es) es'.
Proof. apply fold_left_app. Qed.

Lemma ended_stop (g : Gate.t) : Gate.ended (Gate.stop g) = true.
Proof.
  unfold Gate.stop, Gate.onEnd, Gate.resolve, Gate.emit.
  destruct g as [t e r p l]; simpl.
  destruct e; simpl; [reflexivity|]. destruct t; simpl; [|reflexivity].
  destruct r; reflexivity.
Qed.

Lemma resolved_resolve (r : Resolution) (g : Gate.t) :
  Gate.resolved (Gate.resolve r g)
  = match Gate.resolved g with Some r' => Some r' | None => Some r end.
Proof. unfold Gate.resolve. destruct (Gate.resolved g) eqn:H; simpl; auto. Qed.

(** A promise is resolved once: no input changes a resolution. *)
Lemma resolved_step (g : Gate.t) (e : GateInput) (r : Resolution) :
  Gate.resolved g = Some r -> Gate.resolved (step g e) = Some r.
Proof.
  destruct g as [t en res p l]; simpl. intros ->.
  destruct e as [u c | ok |]; simpl.
  - destruct en; simpl; [reflexivity|].
    destruct (String.eqb u requester); simpl; [|reflexivity].
    unfold Gate.onCollect; simpl.
    destruct (String.eqb c (yes ids)); simpl; [reflexivity|].
    destruct (String.eqb c (no ids)); reflexivity.
  - unfold Gate.resume; simpl. destruct p as [|d p]; simpl; [reflexivity|].
    destruct ok; simpl; [|reflexivity].
    unfold Gate.stop; simpl. destruct en; simpl; [reflexivity|].
    unfold Gate.onEnd; simpl. destruct t; reflexivity.
  - unfold Gate.stop; simpl. destruct en; simpl; [reflexivity|].
    unfold Gate.onEnd; simpl. destruct t; reflexivity.
Qed.

Lemma resolved_run (es : list GateInput) (g : Gate.t) (r : Resolution) :
  Gate.resolved g = Some r -> Gate.resolved (run g es) = Some r.
Proof.
  revert g. induction es as [|e es IH]; intros g H; [exact H|].
  rewrite run_cons. apply IH. now apply resolved_step.
Qed.

(** Whoever resolves the promise has ended the collector first. *)
Lemma settled_step (g : Gate.t) (e : GateInput) : settled g -> settled (step g e).
Proof.
  unfold settled. destruct g as [t en res p l]; simpl. intros Hg.
  destruct e as [u c | ok |]; simpl.
  - destruct en; simpl; [auto|].
    destruct (String.eqb u requester); simpl; [|exact Hg].
    unfold Gate.onCollect; simpl.
    destruct (String.eqb c (yes ids)); simpl; [exact Hg|].
    destruct (String.eqb c (no ids)); exact Hg.
  - unfold Gate.resume; simpl. destruct p as [|d p]; simpl; [exact Hg|].
    destruct ok; simpl; [|exact Hg]. intros _.
    unfold Gate.resolve.
    destruct (Gate.resolved (Gate.stop (Gate.Make t en res p l))); apply ended_stop.
  - intros _. apply ended_stop.
Qed.

Lemma settled_run (es : list GateInput) (g : Gate.t) : settled g -> settled (run g es).
Proof.
  revert g. induction es as [|e es IH]; intros g H; [exact H|].
  rewrite run_cons. apply IH. now apply settled_step.
Qed.

Lemma settled_init : settled Gate.init.
Proof. intros H. now contradiction H. Qed.

(** An ended collector hears no press. *)
Lemma ended_deaf (g : Gate.t) (user customId : string) :
  Gate.ended g = true -> step g (Collect user customId) = g.
Proof. intros H. simpl. now rewrite H. Qed.


(** While no deletion has succeeded, only the end of the collector resolves
    the promise. *)
Lemma undeleted_step (g : Gate.t) (e : GateInput) :
  e <> DeleteSettled true ->
  (Gate.resolved g = None \/ Gate.resolved g = Some TimedOut) ->
  Gate.resolved (step g e) = None \/ Gate.resolved (step g e) = Some TimedOut.
Proof.
  intros He Hg. destruct g as [t en res p l]; simpl in Hg.
  destruct e as [u c | ok |]; simpl.
  - destruct en; simpl; [exact Hg|].
    destruct (String.eqb u requester); simpl; [|exact Hg].
    unfold Gate.onCollect; simpl.
    destruct (String.eqb c (yes ids)); simpl; [exact Hg|].
    destruct (String.eqb c (no ids)); exact Hg.
  - destruct ok; [congruence|].
    unfold Gate.resume; simpl. destruct p; exact Hg.
  - unfold Gate.stop; simpl. destruct en; simpl; [exact Hg|].
    unfold Gate.onEnd; simpl. destruct t; simpl; [|exact Hg].
    rewrite resolved_resolve; simpl. destruct Hg as [-> | ->]; auto.
Qed.

Lemma undeleted_run (es : list GateInput) (g : Gate.t) :
  ~ In (DeleteSettled true) es ->
  (Gate.resolved g = None \/ Gate.resolved g = Some TimedOut) ->
  Gate.resolved (run g es) = None \/ Gate.resolved (run g es) = Some TimedOut.
Proof.
  revert g. induction es as [|e es IH]; intros g Hn Hg; [exact Hg|].
  rewrite run_cons. apply IH.
  - intros H. apply Hn. now right.
  - apply undeleted_step; [|exact Hg]. intros ->. apply Hn. now left.
Qed.

End GateFacts.

Lemma GateInput_eq_dec (a b : GateInput) : {a = b} + {a <> b}.
Proof. decide equality; first [apply string_dec | apply bool_dec]. Defined.

(** A gate at rest stays as it is, whatever arrives. *)
Lemma atRest_frozen (ids : Ids) (requester : string) (es : list GateInput) (g : Gate.t) :
  atRest g -> Gate.run ids requester g es = g.
Proof.
  intros [He Hp]. induction es as [|e es IH]; [reflexivity|].
  rewrite run_cons.
  replace (Gate.step ids requester g e) with g; [exact IH|].
  destruct g as [t en res p l]; simpl in He, Hp; subst.
  destruct e; reflexivity.
Qed.

Section GateLog.

Variable ids : Ids.
Variable requester : string.

Lemma ofGate_step (g : Gate.t) (e : GateInput) :
  Forall ofGate (Gate.log g) -> Forall ofGate (Gate.log (Gate.step ids requester g e)).
Proof.
  destruct g as [t en res p l]; simpl. intros Hl.
  assert (Hs : forall t p, Forall ofGate (Gate.log (Gate.stop (Gate.Make t en res p l)))).
  { intros t' p'. unfold Gate.stop; simpl. destruct en; simpl; [exact Hl|].
    unfold Gate.onEnd; simpl. destruct t'; simpl; [|exact Hl].
    unfold Gate.resolve; simpl. destruct res; simpl;
      (apply Forall_app; split; [exact Hl | repeat constructor]). }
  destruct e as [u c | ok |]; simpl.
  - destruct en; simpl; [exact Hl|].
    destruct (String.eqb u requester); simpl; [|exact Hl].
    unfold Gate.onCollect; simpl.
    destruct (String.eqb c (yes ids)); simpl.
    { apply Forall_app; split; [exact Hl | repeat constructor]. }
    destruct (String.eqb c (no ids)); simpl; [|exact Hl].
    apply Forall_app; split; [exact Hl | repeat constructor].
  - unfold Gate.resume; simpl. destruct p as [|d p]; simpl; [exact Hl|].
    destruct ok; simpl; [|exact Hl].
    unfold Gate.resolve.
    destruct (Gate.resolved (Gate.stop (Gate.Make t en res p l))); apply Hs.
  - apply Hs.
Qed.

Lemma ofGate_run (es : list GateInput) (g : Gate.t) :
  Forall ofGate (Gate.log g) -> Forall ofGate (Gate.log (Gate.run ids requester g es)).
Proof.
  revert g. induction es as [|e es IH]; intros g H; [exact H|].
  rewrite run_cons. apply IH. now apply ofGate_step.
Qed.

(** After a press of the requester the end listener stays silent. *)
Lemma pressed_step (g : Gate.t) (e : GateInput) :
  pressed g -> pressed (Gate.step ids requester g e).
Proof.
  destruct g as [t en res p l]. intros (Ht & Hr & Hp); simpl in *; subst t.
  unfold pressed. destruct e as [u c | ok |]; simpl.
  - destruct en; simpl; [repeat split; auto|].
    destruct (String.eqb u requester); simpl; [|repeat split; auto].
    unfold Gate.onCollect; simpl.
    destruct (String.eqb c (yes ids)); simpl.
    { repeat split; auto. rewrite in_app_iff; simpl. intuition discriminate. }
    destruct (String.eqb c (no ids)); simpl; [|repeat split; auto].
    repeat split; auto. rewrite in_app_iff; simpl. intuition discriminate.
  - unfold Gate.resume; simpl. destruct p as [|d p]; simpl; [repeat split; auto|].
    simpl in Hp. destruct ok; simpl; [|repeat split; auto].
    unfold Gate.stop; simpl. destruct en; simpl;
      unfold Gate.resolve; simpl; destruct res; simpl; repeat split; auto;
      intros H; inversion H; subst; auto.
  - unfold Gate.stop; simpl. destruct en; simpl; repeat split; auto.
Qed.

Lemma pressed_run (es : list GateInput) (g : Gate.t) :
  pressed g -> pressed (Gate.run ids requester g es).
Proof.
  revert g. induction es as [|e es IH]; intros g H; [exact H|].
  rewrite run_cons. apply IH. now apply pressed_step.
Qed.

(** A gate resolved by the end listener has done one thing: the follow-up. *)
Lemma timedOut_log (es : list GateInput) :
  forall g : Gate.t,
    Gate.timeout g = true -> Gate.ended g = false ->
    Gate.resolved g = None -> Gate.pending g = [] ->
    Gate.resolved (Gate.run ids requester g es) = Some TimedOut ->
    Gate.log (Gate.run ids requester g es)
    = (Gate.log g ++ [FollowUp "You took too long to respond" true])%list.
Proof.
  induction es as [|e es IH]; intros g Ht Hen Hr Hp H.
  - simpl in H. congruence.
  - rewrite run_cons in *.
    destruct g as [t en res p l]; simpl in Ht, Hen, Hr, Hp; subst.
    destruct e as [u c | ok |].
    + simpl in *. destruct (String.eqb u requester); simpl in *.
      2:{ now apply IH. }
      exfalso.
      assert (Hq : pressed (Gate.onCollect ids c (Gate.Make true false None [] l))).
      { unfold pressed, Gate.onCollect; simpl.
        destruct (String.eqb c (yes ids)); simpl.
        { repeat split; simpl; intuition discriminate. }
        destruct (String.eqb c (no ids)); simpl;
          repeat split; simpl; intuition discriminate. }
      apply (pressed_run es) in Hq. destruct Hq as (_ & Hq & _). contradiction.
    + simpl in *. unfold Gate.resume in *; simpl in *. now apply IH.
    + rewrite atRest_frozen by (split; reflexivity). reflexivity.
Qed.

(** Without a press of the requester the end listener resolves the promise. *)
Lemma unanswered_timedOut (es : list GateInput) :
  forall g : Gate.t,
    Gate.timeout g = true -> Gate.ended g = false ->
    Gate.resolved g = None -> Gate.pending g = [] ->
    unanswered requester es = true ->
    Gate.resolved (Gate.run ids requester g es) = Some TimedOut.
Proof.
  induction es as [|e es IH]; intros g Ht Hen Hr Hp H; [discriminate|].
  rewrite run_cons.
  destruct g as [t en res p l]; simpl in Ht, Hen, Hr, Hp; subst.
  destruct e as [u c | ok |]; simpl in H.
  - apply andb_true_iff in H as [Hu H]. apply negb_true_iff in Hu.
    simpl. rewrite Hu. now apply IH.
  - simpl. unfold Gate.resume; simpl. now apply IH.
  - apply resolved_run. reflexivity.
Qed.

End GateLog.

Lemma ofGate_quiet (e : Effect) : ofGate e -> quiet e.
Proof. destruct e; simpl; auto. Qed.

(** C3, as stated, fails: the requester presses No, the deletion of the prompt
    fails, the time runs out; the gate is at rest and the promise is not
    resolved. *)
Lemma gate_unresolved_after_failed_deletion :
  let g := Gate.run sampleIds "42" Gate.init
             [Collect "42" "9b1e"; DeleteSettled false; TimeExpired] in
  Gate.resolved g = None /\ Gate.ended g = true /\ Gate.pending g = [].
Proof. repeat split. Qed.

(** Once a listener waits for its deletion, the first deletion to settle
    decides: when it succeeds the promise has the resolution of the oldest
    listener, whatever else arrives. *)
Lemma first_deletion_resolves (ids : Ids) (requester : string) (es : list GateInput) :
  forall (g : Gate.t) (d : Resolution) (rest : list Resolution),
    Gate.resolved g = None -> Gate.timeout g = false ->
    Gate.pending g = d :: rest ->
    firstDeletion es = Some true ->
    Gate.resolved (Gate.run ids requester g es) = Some d.
Proof.
  induction es as [|e es IH]; intros g d rest Hr Ht Hp Hd; [discriminate|].
  rewrite run_cons.
  destruct g as [t en res p l]; simpl in Hr, Ht, Hp; subst.
  destruct e as [u c | ok |]; simpl in Hd.
  - simpl. destruct en; simpl.
    { now apply (IH _ d rest). }
    destruct (String.eqb u requester); simpl.
    2:{ now apply (IH _ d rest). }
    unfold Gate.onCollect; simpl.
    destruct (String.eqb c (yes ids)); simpl.
    { now apply (IH _ d (rest ++ [Confirmed])%list). }
    destruct (String.eqb c (no ids)); simpl.
    { now apply (IH _ d (rest ++ [Declined])%list). }
    now apply (IH _ d rest).
  - inversion Hd; subst ok.
    apply resolved_run. simpl. unfold Gate.resume; simpl.
    rewrite resolved_resolve. unfold Gate.stop; simpl.
    destruct en; reflexivity.
  - simpl. unfold Gate.stop; simpl.
    destruct en; simpl; now apply (IH _ d rest).
Qed.

Lemma decided_resolves (ids : Ids) (requester : string) (es : list GateInput) :
  forall g : Gate.t,
    Gate.timeout g = true -> Gate.ended g = false ->
    Gate.resolved g = None -> Gate.pending g = [] ->
    decided ids requester es = true ->
    Gate.resolved (Gate.run ids requester g es) = Some (firstMatch ids requester es).
Proof.
  induction es as [|e es IH]; intros g Ht Hen Hr Hp Hd; [discriminate|].
  rewrite run_cons.
  destruct g as [t en res p l]; simpl in Ht, Hen, Hr, Hp; subst.
  destruct e as [u c | ok |]; simpl in Hd |- *.
  - destruct (String.eqb u requester); simpl.
    2:{ now apply IH. }
    apply andb_true_iff in Hd as [Hb Hd].
    assert (Hd' : firstDeletion es = Some true)
      by (destruct (firstDeletion es) as [[|]|]; congruence).
    unfold Gate.onCollect; simpl.
    destruct (String.eqb c (yes ids)); simpl.
    { now apply (first_deletion_resolves ids requester es _ Confirmed []). }
    simpl in Hb. rewrite Hb.
    now apply (first_deletion_resolves ids requester es _ Declined []).
  - unfold Gate.resume; simpl. now apply IH.
  - apply resolved_run. reflexivity.
Qed.

(** C3, amended: for every sequence of events in which the deletion of the
    prompt asked for by the requester's first press succeeds, the gate is
    resolved with what that first press selected, Confirmed or Declined,
    whatever presses and deletions, failed ones included, come after it; when
    the time is over before any press of the requester it is resolved with
    TimedOut. A resolution is never changed by what arrives later, and once
    the gate is resolved a press changes nothing, the collector having
    ended. *)
Theorem gate_first_match_wins (ids : Ids) (requester : string) :
  (forall es : list GateInput,
     decided ids requester es = true ->
     Gate.resolved (Gate.run ids requester Gate.init es)
     = Some (firstMatch ids requester es))
  /\ (forall (es es' : list GateInput) (r : Resolution),
        Gate.resolved (Gate.run ids requester Gate.init es) = Some r ->
        Gate.resolved (Gate.run ids requester Gate.init (es ++ es')) = Some r)
  /\ (forall (es : list GateInput) (r : Resolution) (user customId : string),
        Gate.resolved (Gate.run ids requester Gate.init es) = Some r ->
        Gate.step ids requester (Gate.run ids requester Gate.init es)
          (Collect user customId)
        = Gate.run ids requester Gate.init es).
Proof.
  split; [|split].
  - intros es Hd. now apply decided_resolves.
  - intros es es' r H. rewrite run_app. now apply resolved_run.
  - intros es r user customId H. apply ended_deaf.
    apply (settled_run ids requester es Gate.init settled_init). congruence.
Qed.

(** The requester presses No, then Yes; the first deletion succeeds, the second
    one finds no prompt and fails; somebody else pressed Yes before. *)
Lemma gate_first_match_wins_witness :
  Gate.resolved
    (Gate.run sampleIds "42" Gate.init
       [Collect "7" "3f2c"; Collect "42" "9b1e"; Collect "42" "3f2c";
        DeleteSettled true; DeleteSettled false; Collect "42" "3f2c"; TimeExpired])
  = Some Declined.
Proof.
  apply (proj1 (gate_first_match_wins sampleIds "42")).
  reflexivity.
Defined.

(** C9, amended: the gate returns Confirmed or Declined only after a deletion
    of the prompt has succeeded; a deletion that fails changes neither the
    promise nor the collector and is not logged, and the gate never writes to
    the console. *)
Theorem gate_decision_after_deletion (ids : Ids) (requester : string) :
  (forall (es : list GateInput) (r : Resolution),
     Gate.resolved (Gate.run ids requester Gate.init es) = Some r ->
     r <> TimedOut -> In (DeleteSettled true) es)
  /\ (forall es : list GateInput,
        let g := Gate.run ids requester Gate.init es in
        let g' := Gate.run ids requester Gate.init (es ++ [DeleteSettled false]) in
        Gate.resolved g' = Gate.resolved g
        /\ Gate.ended g' = Gate.ended g
        /\ Gate.log g' = Gate.log g)
  /\ (forall es : list GateInput,
        Forall quiet (Gate.log (Gate.run ids requester Gate.init es))).
Proof.
  split; [|split].
  - intros es r Hr Hne.
    destruct (in_dec GateInput_eq_dec (DeleteSettled true) es) as [H | H]; [exact H|].
    destruct (undeleted_run ids requester es Gate.init H (or_introl eq_refl)); congruence.
  - intros es g g'. subst g g'. rewrite run_app. simpl.
    destruct (Gate.run ids requester Gate.init es) as [t en res p l].
    unfold Gate.resume; simpl. destruct p; simpl; auto.
  - intros es. apply (Forall_impl quiet ofGate_quiet).
    apply ofGate_run. constructor.
Qed.

Lemma gate_decision_after_deletion_witness :
  In (DeleteSettled true) [Collect "42" "3f2c"; DeleteSettled true].
Proof.
  apply (proj1 (gate_decision_after_deletion sampleIds "42")
           [Collect "42" "3f2c"; DeleteSettled true] Confirmed).
  - reflexivity.
  - discriminate.
Defined.

(** ** The command around the gate *)

Arguments audioPath : simpl never.
Arguments imagePath : simpl never.
Arguments videoPath : simpl never.
Arguments prompt : simpl never.
Arguments ffmpegCommand : simpl never.
Arguments fence : simpl never.
Arguments parseTags : simpl never.
Arguments confirmation : simpl never.
Arguments formData : simpl never.
Arguments youtubeDescription : simpl never.
Arguments soundcloudDescription : simpl never.
Arguments String.append : simpl never.

Ltac run_steps :=
  unfold pipeline, transcode, callback, uploadToYoutubeAndSoundcloud,
    feedNotification, deleteTemporaryFiles, download, gated, catch, await,
    bind, emit, emits, ret, stop, finish.

(** A request is turned down with one message, or passes the checks. *)
Lemma command_checks (w : World) (i : Interaction) :
  (exists message, forall cfg,
      command cfg w i = ([DeferReply; Respond message true], Next tt))
  \/ (exists audio image title, accepted i audio image title).
Proof.
  unfold command, accepted.
  destruct (channelSendable i); simpl; [|left; eexists; reflexivity].
  destruct (audioOption i) as [audio|]; [|left; eexists; reflexivity].
  destruct (imageOption i) as [image|]; [|left; eexists; reflexivity].
  destruct (titleOption i) as [title|]; [|left; eexists; reflexivity].
  destruct (JS.endsWith (name audio) ".mp3") eqn:E1,
           (JS.endsWith (name audio) ".wav") eqn:E2;
    simpl; try (left; eexists; reflexivity);
    destruct (JS.endsWith (name image) ".png") eqn:E3,
             (JS.endsWith (name image) ".jpg") eqn:E4;
    simpl; try (left; eexists; reflexivity);
    right; exists audio, image, title; rewrite E1, E2, E3, E4;
    repeat split; reflexivity.
Qed.

Section Command.

Variable cfg : Config.
Variable w : World.
Variable i : Interaction.

Variables audio image : Attachment.
Variable title : string.
Hypothesis Hacc : accepted i audio image title.

Lemma command_accepted :
  command cfg w i
  = (emits (prelude w i title) ;;
     gated w i
       (pipeline cfg w i audio image title
          (descriptionOf i) (tagsStringOf i) (parseTags (tagsStringOf i)))).
Proof.
  destruct Hacc as (Hc & Ha & Him & Ht & Hae & Hie).
  unfold command. rewrite Hc, Ha, Him, Ht. simpl negb. cbv iota.
  rewrite <- !negb_orb, Hae, Hie. simpl negb. cbv iota.
  unfold prelude, bind, emit, emits; simpl.
  destruct (gated _ _ _); reflexivity.
Qed.

(** No resolution: the command waits for ever at line 150. *)
Lemma run_suspended :
  Gate.resolved (confirmation w i) = None ->
  run cfg w i = ((prelude w i title ++ Gate.log (confirmation w i))%list, Suspended).
Proof.
  intros H. unfold run. rewrite command_accepted. run_steps. rewrite H. simpl.
  now rewrite app_nil_r.
Qed.

(** Lines 174-177. *)
Lemma run_cancelled (r : Resolution) :
  Gate.resolved (confirmation w i) = Some r -> result r = false ->
  run cfg w i
  = ((prelude w i title ++ Gate.log (confirmation w i) ++ [Respond "Cancelled" true])%list,
     Returned).
Proof.
  intros H Hr. unfold run. rewrite command_accepted.
  unfold gated. rewrite H, Hr. reflexivity.
Qed.

Lemma run_confirmed (r : Resolution) :
  Gate.resolved (confirmation w i) = Some r -> result r = true ->
  run cfg w i
  = (let (l, x) :=
       finish (pipeline cfg w i audio image title
                 (descriptionOf i) (tagsStringOf i) (parseTags (tagsStringOf i))) in
     ((prelude w i title ++ Gate.log (confirmation w i) ++ l)%list, x)).
Proof.
  intros H Hr. unfold run. rewrite command_accepted.
  unfold gated. rewrite H, Hr.
  destruct (pipeline _ _ _ _ _ _ _ _ _) as [l [[]|x]]; reflexivity.
Qed.

End Command.

(** The shapes of a run: turned down; waiting for ever at the gate; cancelled;
    or confirmed and followed by the pipeline. *)
Lemma trace_shape (w : World) (i : Interaction) :
  (exists message, forall cfg, trace cfg w i = [DeferReply; Respond message true])
  \/ (exists audio image title,
        accepted i audio image title
        /\ ((forall cfg,
               trace cfg w i = (prelude w i title ++ Gate.log (confirmation w i))%list)
            \/ (forall cfg,
                  trace cfg w i
                  = (prelude w i title ++ Gate.log (confirmation w i)
                       ++ [Respond "Cancelled" true])%list)
            \/ (forall cfg,
                  trace cfg w i
                  = (prelude w i title ++ Gate.log (confirmation w i)
                       ++ fst (pipeline cfg w i audio image title (descriptionOf i)
                                 (tagsStringOf i) (parseTags (tagsStringOf i))))%list))).
Proof.
  destruct (command_checks w i) as [[m Hm] | (audio & image & title & Hacc)].
  - left. exists m. intros cfg. unfold trace, run. now rewrite Hm.
  - right. exists audio, image, title. split; [exact Hacc|].
    destruct (Gate.resolved (confirmation w i)) as [r|] eqn:Hg.
    + destruct (result r) eqn:Hr.
      * right; right. intros cfg. unfold trace.
        rewrite (run_confirmed cfg w i audio image title Hacc r Hg Hr).
        destruct (pipeline _ _ _ _ _ _ _ _ _) as [l [[]|x]]; reflexivity.
      * right; left. intros cfg. unfold trace.
        now rewrite (run_cancelled cfg w i audio image title Hacc r Hg Hr).
    + left. intros cfg. unfold trace.
      now rewrite (run_suspended cfg w i audio image title Hacc Hg).
Qed.

(** ** After the confirmation *)

Lemma fetched_app (l l' : list Effect) : fetched (l ++ l') = (fetched l ++ fetched l')%list.
Proof. induction l as [|[] l IH]; simpl; congruence. Qed.

Lemma written_app (l l' : list Effect) : written (l ++ l') = (written l ++ written l')%list.
Proof. induction l as [|[] l IH]; simpl; congruence. Qed.

Lemma unlinked_app (l l' : list Effect) : unlinked (l ++ l') = (unlinked l ++ unlinked l')%list.
Proof. induction l as [|[] l IH]; simpl; congruence. Qed.

Lemma soundcloudCalls_app (l l' : list Effect) :
  soundcloudCalls (l ++ l') = (soundcloudCalls l ++ soundcloudCalls l')%list.
Proof. induction l as [|[] l IH]; simpl; congruence. Qed.

(** The effects of the gate are none of the pipeline's. *)
Lemma ofGate_none (l : list Effect) :
  Forall ofGate l ->
  fetched l = [] /\ written l = [] /\ unlinked l = [] /\ soundcloudCalls l = []
  /\ Forall (fun e => outside e = false) l.
Proof.
  induction 1 as [|e l He _ (Hf & Hw & Hu & Hs & Ho)]; [repeat split; auto|].
  destruct e; simpl in He; try contradiction; simpl; repeat split; auto.
Qed.

Lemma confirmation_ofGate (w : World) (i : Interaction) :
  Forall ofGate (Gate.log (confirmation w i)).
Proof. apply ofGate_run. constructor. Qed.

Lemma outside_laterStage (l : list Effect) :
  Forall (fun e => outside e = false) l -> Forall (fun e => laterStage e = false) l.
Proof. apply Forall_impl. intros []; simpl; auto; discriminate. Qed.

Section Pipeline.

Variable cfg : Config.
Variable w : World.
Variable i : Interaction.
Variables audio image : Attachment.
Variables title description tagsString : string.
Variable tags : list string.

Local Abbreviation pipe :=
  (pipeline cfg w i audio image title description tagsString tags).
Local Abbreviation upload :=
  (uploadToYoutubeAndSoundcloud cfg w i (audioPath audio) (imagePath image) (videoPath i)
     title description tags).

Lemma pipeline_audio_fails (err : string) :
  audioFetch w = NetworkError err ->
  pipe = ([Mkdir ".tmp"; Fetch (url audio)], Stop (Threw err)).
Proof. intros H. run_steps. rewrite H. reflexivity. Qed.

Lemma pipeline_image_fails (s : nat) (b err : string) :
  audioFetch w = Response s b -> imageFetch w = NetworkError err ->
  pipe = ([Mkdir ".tmp"; Fetch (url audio); WriteFile (audioPath audio) b;
           Fetch (url image)], Stop (Threw err)).
Proof. intros H H'. run_steps. rewrite H, H'. reflexivity. Qed.

Lemma pipeline_downloaded (s s' : nat) (b b' : string) :
  audioFetch w = Response s b -> imageFetch w = Response s' b' ->
  pipe
  = (let (l, x) :=
       transcode cfg w i (audioPath audio) (imagePath image) (videoPath i)
         title description tagsString tags in
     (Mkdir ".tmp" :: Fetch (url audio) :: WriteFile (audioPath audio) b
        :: Fetch (url image) :: WriteFile (imagePath image) b' :: l, x)).
Proof.
  intros H H'. unfold pipeline, download, bind, emit. rewrite H, H'.
  destruct (transcode _ _ _ _ _ _ _ _ _ _) as [l x]. reflexivity.
Qed.

(** The stages after the downloads fetch nothing and write no file. *)
Lemma transcode_no_download (a im v : string) :
  let l := fst (transcode cfg w i a im v title description tagsString tags) in
  fetched l = [] /\ written l = [].
Proof.
  run_steps.
  destruct (canUseYoutube cfg); simpl;
    [destruct (ffmpeg w); simpl; [|auto]; destruct (youtube w) as [yt|]; simpl; [|auto];
     destruct (uploaded yt); simpl|];
    destruct (canUseSoundcloud cfg); simpl;
    try (destruct (soundcloud w); simpl);
    try (destruct (feedChannel w) as [[|]|]; simpl);
    try (destruct (site w); simpl); auto.
Qed.

End Pipeline.

(** ** Cancellation *)

(** A property of every effect of a list built from known effects and lists
    that have it. *)
Ltac all_effects :=
  repeat first
    [ assumption
    | apply Forall_nil
    | apply Forall_cons; [reflexivity|]
    | apply Forall_app; split ].

(** C8: when the time of the gate is over before the requester has pressed,
    the command answers as it does to a decline: it says Cancelled and returns,
    having touched neither the network nor the file system; all it did besides
    is the follow-up of the end listener. *)
Theorem timeout_cancels (cfg : Config) (w : World) (i : Interaction)
    (audio image : Attachment) (title : string) :
  accepted i audio image title ->
  (unanswered (userId i) (presses w) = true ->
   Gate.resolved (confirmation w i) = Some TimedOut
   /\ run cfg w i
      = ((prelude w i title
            ++ [FollowUp "You took too long to respond" true; Respond "Cancelled" true])%list,
         Returned))
  /\ (forall r : Resolution,
        Gate.resolved (confirmation w i) = Some r -> result r = false ->
        run cfg w i
        = ((prelude w i title ++ Gate.log (confirmation w i)
              ++ [Respond "Cancelled" true])%list, Returned)
        /\ Forall (fun e => outside e = false) (trace cfg w i)).
Proof.
  intros Hacc. split.
  - intros Hu.
    assert (H : Gate.resolved (confirmation w i) = Some TimedOut)
      by (now apply unanswered_timedOut).
    split; [exact H|].
    rewrite (run_cancelled cfg w i audio image title Hacc TimedOut H eq_refl).
    unfold confirmation in *.
    rewrite (timedOut_log _ _ _ Gate.init eq_refl eq_refl eq_refl eq_refl H).
    reflexivity.
  - intros r H Hr. unfold trace.
    rewrite (run_cancelled cfg w i audio image title Hacc r H Hr). split; [reflexivity|].
    pose proof (ofGate_none _ (confirmation_ofGate w i)) as (_ & _ & _ & _ & Ho).
    simpl fst. all_effects.
Qed.

Lemma sampleRequest_accepted :
  accepted sampleRequest sampleAudio sampleImage "Test Song".
Proof. repeat split. Qed.

Lemma timeout_cancels_witness :
  run sampleConfig (withPresses [Collect "7" "3f2c"; TimeExpired] sampleWorld) sampleRequest
  = ((prelude sampleWorld sampleRequest "Test Song"
        ++ [FollowUp "You took too long to respond" true; Respond "Cancelled" true])%list,
     Returned).
Proof.
  apply (proj1 (timeout_cancels sampleConfig
                  (withPresses [Collect "7" "3f2c"; TimeExpired] sampleWorld)
                  sampleRequest sampleAudio sampleImage "Test Song"
                  sampleRequest_accepted)).
  reflexivity.
Defined.

(** ** Downloads *)

(** C2, as stated, fails: the audio URL answers 404; the command stores the
    body of the answer as the audio file and goes on to encode, publish and
    submit. *)
Lemma download_ignores_status :
  let t := trace sampleConfig (withAudioFetch (Response 404 "Not Found") sampleWorld)
             sampleRequest in
  snd (run sampleConfig (withAudioFetch (Response 404 "Not Found") sampleWorld)
         sampleRequest) = Returned
  /\ In (WriteFile (audioPath sampleAudio) "Not Found") t
  /\ In (YoutubeUpload "Test Song" (youtubeDescription EmptyString ["a"; "b"]) ["a"; "b"]
           (videoPath sampleRequest)) t
  /\ existsb laterStage t = true.
Proof. vm_compute. intuition. Qed.

(** C2, amended: a fetch that fails (a network failure; the status of an answer
    is not looked at, and its body is stored whatever it is) ends the command
    with that error, after one fetch of that URL and before any later stage:
    nothing is encoded, published or submitted. When the audio fetch fails no
    file has been written; when the image fetch fails the audio file has. *)
Theorem download_failure_aborts (cfg : Config) (w : World) (i : Interaction)
    (audio image : Attachment) (title : string) (r : Resolution) :
  accepted i audio image title ->
  Gate.resolved (confirmation w i) = Some r -> result r = true ->
  (forall err : string,
     audioFetch w = NetworkError err ->
     snd (run cfg w i) = Threw err
     /\ fetched (trace cfg w i) = [url audio]
     /\ written (trace cfg w i) = []
     /\ Forall (fun e => laterStage e = false) (trace cfg w i))
  /\ (forall (s : nat) (b err : string),
        audioFetch w = Response s b -> imageFetch w = NetworkError err ->
        snd (run cfg w i) = Threw err
        /\ fetched (trace cfg w i) = [url audio; url image]
        /\ written (trace cfg w i) = [audioPath audio]
        /\ Forall (fun e => laterStage e = false) (trace cfg w i))
  /\ (forall (s s' : nat) (b b' : string),
        audioFetch w = Response s b -> imageFetch w = Response s' b' ->
        fetched (trace cfg w i) = [url audio; url image]
        /\ written (trace cfg w i) = [audioPath audio; imagePath image]
        /\ In (WriteFile (audioPath audio) b) (trace cfg w i)
        /\ In (WriteFile (imagePath image) b') (trace cfg w i)).
Proof.
  intros Hacc Hg Hr.
  pose proof (run_confirmed cfg w i audio image title Hacc r Hg Hr) as Hrun.
  destruct (ofGate_none _ (confirmation_ofGate w i)) as (Hf & Hw & _ & _ & Ho).
  apply outside_laterStage in Ho.
  split; [|split].
  - intros err Ha. unfold trace. rewrite Hrun, (pipeline_audio_fails _ _ _ _ _ _ _ _ _ _ Ha).
    simpl. rewrite !fetched_app, !written_app, Hf, Hw. repeat split.
    all_effects.
  - intros s b err Ha Him. unfold trace.
    rewrite Hrun, (pipeline_image_fails _ _ _ _ _ _ _ _ _ _ _ _ Ha Him).
    simpl. rewrite !fetched_app, !written_app, Hf, Hw. repeat split.
    all_effects.
  - intros s s' b b' Ha Him. unfold trace.
    rewrite Hrun, (pipeline_downloaded _ _ _ _ _ _ _ _ _ _ _ _ _ Ha Him).
    pose proof (transcode_no_download cfg w i title (descriptionOf i) (tagsStringOf i)
                  (parseTags (tagsStringOf i)) (audioPath audio) (imagePath image)
                  (videoPath i)) as [Hf' Hw'].
    destruct (transcode _ _ _ _ _ _ _ _ _ _) as [l [[]|x]]; simpl in *;
      rewrite !fetched_app, !written_app, Hf, Hw; simpl; rewrite Hf', Hw';
      repeat split; right; right; apply in_or_app; right; simpl; auto 10.
Qed.

Lemma download_failure_aborts_witness :
  snd (run sampleConfig
         (withImageFetch (NetworkError "TypeError: fetch failed") sampleWorld)
         sampleRequest)
  = Threw "TypeError: fetch failed".
Proof.
  apply (proj1 (proj2 (download_failure_aborts sampleConfig
                 (withImageFetch (NetworkError "TypeError: fetch failed") sampleWorld)
                 sampleRequest sampleAudio sampleImage "Test Song" Confirmed
                 sampleRequest_accepted eq_refl eq_refl))
           200 "AUDIO" "TypeError: fetch failed" eq_refl eq_refl).
Defined.

(** ** The gate inside the command *)

(** C9, as stated, fails: the requester presses Yes and the deletion of the
    prompt fails. Nothing is written to the console, the promise is not
    resolved, and the command waits for ever: no decision is returned. *)
Lemma failed_deletion_suspends :
  let w := withPresses [Collect "42" "3f2c"; DeleteSettled false; TimeExpired] sampleWorld in
  run sampleConfig w sampleRequest
  = ((prelude w sampleRequest "Test Song" ++ [PromptDelete])%list, Suspended)
  /\ Gate.resolved (confirmation w sampleRequest) = None
  /\ Gate.log (confirmation w sampleRequest) = [PromptDelete].
Proof. vm_compute. repeat split. Qed.

(** ** Publishing *)

Section Publishing.

Variable cfg : Config.
Variable w : World.
Variable i : Interaction.
Variables audioPath imagePath videoPath title description : string.
Variable tags : list string.

Local Abbreviation upload :=
  (uploadToYoutubeAndSoundcloud cfg w i audioPath imagePath videoPath
     title description tags).

(** Lines 29-35. *)
Lemma upload_video_refused (ytData : YtData) :
  canUseYoutube cfg = true -> youtube w = Resolves ytData -> uploaded ytData = false ->
  upload
  = ([YoutubeUpload title (youtubeDescription description tags) tags videoPath;
      Respond ("An error occurred while uploading the video" ++ fence (json ytData)) true],
     Next None).
Proof. intros Hc Hy Hu. run_steps. rewrite Hc, Hy. simpl. now rewrite Hu. Qed.

Lemma upload_video_throws (err : string) :
  canUseYoutube cfg = true -> youtube w = Rejects err ->
  upload
  = ([YoutubeUpload title (youtubeDescription description tags) tags videoPath],
     Stop (Threw err)).
Proof. intros Hc Hy. run_steps. rewrite Hc, Hy. reflexivity. Qed.

(** Lines 23-24 and 36: the video URL of a result is the placeholder when the
    target is off. *)
Lemma upload_video_disabled (l : list Effect) (urls : Urls) :
  canUseYoutube cfg = false -> upload = (l, Next (Some urls)) ->
  youtubeUrl urls = placeholder.
Proof.
  intros Hc. run_steps. rewrite Hc. simpl.
  destruct (canUseSoundcloud cfg); simpl; [destruct (soundcloud w); simpl|];
    try discriminate;
    destruct (feedChannel w) as [[|]|]; simpl; intros H; inversion H; reflexivity.
Qed.

(** The audio target is asked the same thing whether the video target is off
    or on and served. *)
Lemma upload_audio_unaffected (ytData : YtData) :
  youtube w = Resolves ytData -> uploaded ytData = true ->
  soundcloudCalls
    (fst (uploadToYoutubeAndSoundcloud (videoTarget false cfg) w i
            audioPath imagePath videoPath title description tags))
  = soundcloudCalls
      (fst (uploadToYoutubeAndSoundcloud (videoTarget true cfg) w i
              audioPath imagePath videoPath title description tags))
  /\ soundcloudCalls
       (fst (uploadToYoutubeAndSoundcloud (videoTarget false cfg) w i
               audioPath imagePath videoPath title description tags))
     = if canUseSoundcloud cfg
       then [SoundcloudUpload title (soundcloudDescription description tags) tags
               audioPath imagePath]
       else [].
Proof.
  intros Hy Hu. run_steps. simpl. rewrite Hy. simpl. rewrite Hu. simpl.
  destruct (canUseSoundcloud cfg); simpl; [destruct (soundcloud w); simpl|];
    try (destruct (feedChannel w) as [[|]|]; simpl); auto.
Qed.

End Publishing.

Lemma videoUploads_app (l l' : list Effect) :
  videoUploads (l ++ l') = (videoUploads l ++ videoUploads l')%list.
Proof. induction l as [|[] l IH]; simpl; congruence. Qed.

Lemma ofGate_no_video (l : list Effect) :
  Forall ofGate l -> videoUploads l = [] /\ Forall (fun e => video e = false) l.
Proof.
  induction 1 as [|e l He _ [Hv Hf]]; [split; auto|].
  destruct e; simpl in He; try contradiction; simpl; split; auto.
Qed.

Section PipelineRuns.

Variable cfg : Config.
Variable w : World.
Variable i : Interaction.
Variables audio image : Attachment.
Variables title description tagsString : string.
Variable tags : list string.

Local Abbreviation pipe :=
  (fun cfg => pipeline cfg w i audio image title description tagsString tags).

Lemma pipeline_no_soundcloud :
  canUseYoutube cfg = true -> videoNotUploaded w ->
  soundcloudCalls (fst (pipe cfg)) = [].
Proof.
  unfold videoNotUploaded. intros Hc Hv. run_steps. rewrite Hc.
  destruct (audioFetch w); simpl; [reflexivity|].
  destruct (imageFetch w); simpl; [reflexivity|].
  destruct (ffmpeg w); simpl; [|reflexivity].
  destruct (youtube w) as [yt|]; simpl; [|reflexivity].
  rewrite Hv. reflexivity.
Qed.

Lemma pipeline_no_video :
  canUseYoutube cfg = false -> Forall (fun e => video e = false) (fst (pipe cfg)).
Proof.
  intros Hc. run_steps. rewrite Hc.
  destruct (audioFetch w); simpl; [all_effects|].
  destruct (imageFetch w); simpl; [all_effects|].
  destruct (canUseSoundcloud cfg); simpl;
    [destruct (soundcloud w); simpl; [|all_effects]|];
    destruct (feedChannel w) as [[|]|]; simpl;
    destruct (site w); simpl; all_effects.
Qed.

Lemma pipeline_audio_unaffected (ytData : YtData) :
  ffmpeg w = ExecOk -> youtube w = Resolves ytData -> uploaded ytData = true ->
  soundcloudCalls (fst (pipe (videoTarget false cfg)))
  = soundcloudCalls (fst (pipe (videoTarget true cfg))).
Proof.
  intros Hf Hy Hu. run_steps. simpl. rewrite Hf, Hy. simpl. rewrite Hu.
  destruct (audioFetch w); simpl; [reflexivity|].
  destruct (imageFetch w); simpl; [reflexivity|].
  destruct (canUseSoundcloud cfg); simpl;
    [destruct (soundcloud w); simpl; [|reflexivity]|];
    destruct (feedChannel w) as [[|]|]; simpl;
    destruct (site w); reflexivity.
Qed.

Lemma pipeline_videoPath :
  Forall (eq (videoPath i)) (videoUploads (fst (pipe cfg))).
Proof.
  run_steps.
  destruct (audioFetch w); simpl; [constructor|].
  destruct (imageFetch w); simpl; [constructor|].
  destruct (canUseYoutube cfg); simpl;
    [ destruct (ffmpeg w); simpl; [|constructor];
      destruct (youtube w) as [yt|]; simpl; [|repeat constructor];
      destruct (uploaded yt); simpl; [|repeat constructor]
    | ];
    (destruct (canUseSoundcloud cfg); simpl;
     [destruct (soundcloud w); simpl; [|repeat constructor]|]);
    destruct (feedChannel w) as [[|]|]; simpl;
    destruct (site w); simpl; repeat constructor.
Qed.

End PipelineRuns.

(** A statement about the whole trace follows from the same statement about
    the effects of the pipeline, the rest of a run being messages. *)
Ltac by_trace_shape w i :=
  let m := fresh "message" in
  let Hm := fresh "Hm" in
  let audio := fresh "audio" in
  let image := fresh "image" in
  let title := fresh "title" in
  let Hacc := fresh "Hacc" in
  let Ht := fresh "Ht" in
  destruct (trace_shape w i)
    as [[m Hm] | (audio & image & title & Hacc & [Ht | [Ht | Ht]])];
  [ rewrite !Hm | rewrite !Ht | rewrite !Ht | rewrite !Ht ].

(** The run of the sample request with the video target off: the audio
    platform is called, and the placeholder is what the feed, the site and the
    requester are told. *)
Example video_disabled_run :
  let t := trace (videoTarget false sampleConfig) sampleWorld sampleRequest in
  soundcloudCalls t
  = [SoundcloudUpload "Test Song" (soundcloudDescription EmptyString ["a"; "b"]) ["a"; "b"]
       (audioPath sampleAudio) (imagePath sampleImage)]
  /\ In (Respond ("Uploaded to YouTube: https://example.com/" ++ nl
                  ++ "Uploaded to SoundCloud: https://soundcloud.example/t") false) t
  /\ unlinked t = [audioPath sampleAudio; imagePath sampleImage].
Proof. vm_compute. intuition. Qed.

(** ** Scratch paths *)

(** C10: the path of the video depends on the requester alone: two requests
    of one requester have the same video path, whatever their files, and it is
    the only video file a run hands to the video platform. *)
Theorem videoPath_of_requester (i i' : Interaction) :
  userId i = userId i' ->
  videoPath i = videoPath i'
  /\ (forall (cfg : Config) (w w' : World),
        Forall (eq (videoPath i))
          (videoUploads (trace cfg w i) ++ videoUploads (trace cfg w' i'))).
Proof.
  intros Hu.
  assert (Hv : videoPath i = videoPath i') by (unfold videoPath; now rewrite Hu).
  split; [exact Hv|]. intros cfg w w'.
  assert (H : forall w i, Forall (eq (videoPath i)) (videoUploads (trace cfg w i))).
  { clear. intros w i.
    destruct (ofGate_no_video _ (confirmation_ofGate w i)) as [Hg _].
    by_trace_shape w i; unfold prelude; simpl;
      rewrite ?videoUploads_app, ?Hg; simpl; try constructor.
    apply pipeline_videoPath. }
  apply Forall_app. split; [apply H|]. rewrite Hv. apply H.
Qed.

Lemma videoPath_of_requester_witness :
  videoPath sampleRequest = videoPath otherRequest.
Proof. apply (proj1 (videoPath_of_requester sampleRequest otherRequest eq_refl)). Defined.

(** Two runs of one requester with different files: different audio and image
    files, one video file. *)
Example videoPath_shared :
  written (trace sampleConfig sampleWorld sampleRequest)
  <> written (trace sampleConfig sampleWorld otherRequest)
  /\ videoUploads (trace sampleConfig sampleWorld sampleRequest) = ["./.tmp/42.mp4"]
  /\ videoUploads (trace sampleConfig sampleWorld otherRequest) = ["./.tmp/42.mp4"].
Proof. vm_compute. repeat split. discriminate. Qed.

(** ** Cleanup *)

Section Cleanup.

Variable cfg : Config.
Variable w : World.
Variable i : Interaction.
Variables audioPath imagePath videoPath title description tagsString : string.
Variable tags : list string.

Local Abbreviation upload :=
  (uploadToYoutubeAndSoundcloud cfg w i audioPath imagePath videoPath
     title description tags).
Local Abbreviation called :=
  (callback cfg w i audioPath imagePath videoPath title description tagsString tags).

(** What [deleteTemporaryFiles] unlinks. *)
Lemma deleteTemporaryFiles_unlinks :
  deleteTemporaryFiles cfg audioPath imagePath videoPath
  = (((if canUseYoutube cfg then [Unlink videoPath] else [])
        ++ [Unlink audioPath; Unlink imagePath])%list, Next tt).
Proof. run_steps. destruct (canUseYoutube cfg); reflexivity. Qed.

(** Lines 199-205: the encoder failed; the callback returns at once. *)
Lemma callback_encoder_failed (stderr : string) :
  called (ExecError stderr)
  = ([Respond ("An error occurred while processing the files" ++ fence stderr) true],
     Stop Returned).
Proof. reflexivity. Qed.

(** Lines 211-217: a publish target threw; the callback returns at once. *)
Lemma callback_publish_threw (l : list Effect) (err : string) :
  upload = (l, Stop (Threw err)) ->
  called ExecOk
  = ((l ++ [Respond ("An error occurred while uploading the video" ++ fence err) true])%list,
     Stop Returned).
Proof. intros H. unfold callback, catch. rewrite H. reflexivity. Qed.

(** Lines 226-229: no URLs; the files are unlinked. *)
Lemma callback_no_urls (l : list Effect) :
  upload = (l, Next None) ->
  called ExecOk
  = ((l ++ (if canUseYoutube cfg then [Unlink videoPath] else [])
        ++ [Unlink audioPath; Unlink imagePath])%list, Next tt).
Proof.
  intros H. unfold callback, catch. rewrite H. unfold bind.
  now rewrite deleteTemporaryFiles_unlinks.
Qed.

(** Lines 231-245: published; the files are unlinked after the submission,
    whether the site took it or not. *)
Lemma callback_published (l : list Effect) (urls : Urls) :
  upload = (l, Next (Some urls)) ->
  exists answer : Effect,
    called ExecOk
    = ((l ++ [OpenAsBlob audioPath; OpenAsBlob imagePath;
              FetchHMAC (siteUrl cfg "/api/sound") "POST"
                (formData title urls audioPath imagePath tagsString);
              answer]
          ++ (if canUseYoutube cfg then [Unlink videoPath] else [])
          ++ [Unlink audioPath; Unlink imagePath])%list, Next tt).
Proof.
  intros H. unfold callback, catch. rewrite H. unfold bind at 1.
  destruct (site w); eexists; unfold bind, emit;
    rewrite deleteTemporaryFiles_unlinks; reflexivity.
Qed.

End Cleanup.

(** C1 fails on the code: the run reaches the downloads, writes the audio and
    the image file, and unlinks nothing when the encoder fails or when a
    publish target throws, nor when the image cannot be fetched. The sibling
    path on which the video platform reports a status other than uploaded
    unlinks the three files once. *)
Theorem cleanup_skipped_on_failure :
  let encoderFails :=
    trace sampleConfig (withFfmpeg (ExecError "Invalid data found") sampleWorld)
      sampleRequest in
  let targetThrows :=
    trace sampleConfig (withSoundcloud (Rejects "Error: 401") sampleWorld)
      sampleRequest in
  let videoRefused :=
    trace sampleConfig (withYoutube (Resolves refusedVideo) sampleWorld)
      sampleRequest in
  let imageFails :=
    trace sampleConfig (withImageFetch (NetworkError "TypeError: fetch failed") sampleWorld)
      sampleRequest in
  (written encoderFails = [audioPath sampleAudio; imagePath sampleImage]
   /\ unlinked encoderFails = [])
  /\ (written targetThrows = [audioPath sampleAudio; imagePath sampleImage]
      /\ unlinked targetThrows = [])
  /\ (written imageFails = [audioPath sampleAudio] /\ unlinked imageFails = [])
  /\ unlinked videoRefused
     = [videoPath sampleRequest; audioPath sampleAudio; imagePath sampleImage].
Proof. vm_compute. repeat split. Qed.

(** ** The trailing line of tags *)

(** C5 fails on the code for the audio platform: with no tag, line 41 tests
    the array itself, which is truthy, and joins nothing, so that the line reads
    [Tags: ] and not [Tags: N/A] as on line 28 for the video platform. *)
Theorem soundcloud_tags_line_empty (description : string) :
  soundcloudDescription description [] = description ++ nl ++ nl ++ "Tags: "
  /\ youtubeDescription description [] = description ++ nl ++ nl ++ "Tags: N/A"
  /\ soundcloudCalls (trace sampleConfig sampleWorld untaggedRequest)
     = [SoundcloudUpload "Test Song" (nl ++ nl ++ "Tags: ") []
          (audioPath sampleAudio) (imagePath sampleImage)].
Proof.
  split; [reflexivity|]. split; [reflexivity|]. vm_compute. reflexivity.
Qed.

(** With tags the two descriptions agree and end with the joined tags. *)
Lemma tags_line_nonempty (description tag : string) (tags : list string) :
  soundcloudDescription description (tag :: tags)
  = description ++ nl ++ nl ++ "Tags: " ++ JS.join ", " (tag :: tags)
  /\ youtubeDescription description (tag :: tags)
     = description ++ nl ++ nl ++ "Tags: " ++ JS.join ", " (tag :: tags).
Proof. split; reflexivity. Qed.

(* ================================================================== *)
(** * Further properties *)

(** ** Scratch paths (lines 182-183, 235-236) *)

Lemma hexdigit_isHexDigit (x : Z) :
  isHexDigit (Sha256.hexdigit (Z.land x 0xF)) = true.
Proof.
  change 0xF%Z with (Z.ones 4). rewrite Z.land_ones by lia.
  pose proof (Z.mod_pos_bound x (2 ^ 4) eq_refl) as H.
  remember (x mod 2 ^ 4)%Z as v eqn:Hv. clear Hv.
  assert (Hc : (v = 0 \/ v = 1 \/ v = 2 \/ v = 3 \/ v = 4 \/ v = 5 \/ v = 6 \/ v = 7
                \/ v = 8 \/ v = 9 \/ v = 10 \/ v = 11 \/ v = 12 \/ v = 13 \/ v = 14
                \/ v = 15)%Z) by lia.
  repeat (destruct Hc as [-> | Hc]; [reflexivity|]). subst v. reflexivity.
Qed.

Lemma hex_shape (n : nat) (x : Z) :
  String.length (Sha256.hex n x) = n /\ allHex (Sha256.hex n x) = true.
Proof.
  induction n as [|n [Hl Hh]]; [split; reflexivity|].
  split; [simpl; now rewrite Hl|].
  change (allHex (Sha256.hex (S n) x))
    with (isHexDigit (Sha256.hexdigit (Z.land (Z.shiftr x (4 * Z.of_nat n)) 0xF))
          && allHex (Sha256.hex n x)).
  now rewrite hexdigit_isHexDigit, Hh.
Qed.

(** A digest is written with 64 hexadecimal digits. *)
Lemma sha256hex_shape (s : string) :
  String.length (Sha256.sha256hex s) = 64 /\ allHex (Sha256.sha256hex s) = true.
Proof.
  unfold Sha256.sha256hex, Sha256.digest. cbv zeta.
  set (r := fold_left Sha256.compress _ _).
  cbn [map String.concat].
  rewrite !length_append, !allHex_append.
  rewrite !(proj1 (hex_shape 8 _)), !(proj2 (hex_shape 8 _)).
  split; reflexivity.
Qed.

(** X1: a request that passes the checks gets scratch paths made of the folder
    [./.tmp/], the SHA-256 digest of the URL of the attachment, written with 64
    hexadecimal digits, and the extension its own file name ends with ([.mp3]
    or [.wav], [.png] or [.jpg]); [extname] reads that extension back, so the
    site receives the files as [track] and [cover] with the extensions of the
    attachments. *)
Theorem scratch_paths_keep_extension (i : Interaction) (audio image : Attachment)
    (title : string) :
  accepted i audio image title ->
  exists stemA extA stemI extI : string,
    (name audio = stemA ++ extA /\ (extA = ".mp3" \/ extA = ".wav"))
    /\ (name image = stemI ++ extI /\ (extI = ".png" \/ extI = ".jpg"))
    /\ audioPath audio = "./.tmp/" ++ Sha256.sha256hex (url audio) ++ extA
    /\ imagePath image = "./.tmp/" ++ Sha256.sha256hex (url image) ++ extI
    /\ (String.length (Sha256.sha256hex (url audio)) = 64
        /\ allHex (Sha256.sha256hex (url audio)) = true)
    /\ (String.length (Sha256.sha256hex (url image)) = 64
        /\ allHex (Sha256.sha256hex (url image)) = true)
    /\ JS.extname (audioPath audio) = extA
    /\ JS.extname (imagePath image) = extI
    /\ (forall (urls : Urls) (tagsString : string),
          In (File "track" (audioPath audio) ("track" ++ extA))
             (formData title urls (audioPath audio) (imagePath image) tagsString)
          /\ In (File "cover" (imagePath image) ("cover" ++ extI))
               (formData title urls (audioPath audio) (imagePath image) tagsString)).
Proof.
  intros (_ & _ & _ & _ & Ha & Hi).
  destruct (sha256hex_shape (url audio)) as [HlA HhA].
  destruct (sha256hex_shape (url image)) as [HlI HhI].
  assert (HA : exists stemA extA,
             name audio = stemA ++ extA /\ (extA = ".mp3" \/ extA = ".wav")
             /\ audioPath audio = "./.tmp/" ++ Sha256.sha256hex (url audio) ++ extA).
  { unfold audioPath. destruct (JS.endsWith (name audio) ".mp3") eqn:E.
    - apply endsWith_iff in E as [stem E]. exists stem, ".mp3". auto.
    - simpl in Ha. apply endsWith_iff in Ha as [stem E']. exists stem, ".wav". auto. }
  assert (HI : exists stemI extI,
             name image = stemI ++ extI /\ (extI = ".png" \/ extI = ".jpg")
             /\ imagePath image = "./.tmp/" ++ Sha256.sha256hex (url image) ++ extI).
  { unfold imagePath. destruct (JS.endsWith (name image) ".png") eqn:E.
    - apply endsWith_iff in E as [stem E]. exists stem, ".png". auto.
    - simpl in Hi. apply endsWith_iff in Hi as [stem E']. exists stem, ".jpg". auto. }
  destruct HA as (stemA & extA & HnA & HeA & HpA).
  destruct HI as (stemI & extI & HnI & HeI & HpI).
  assert (HxA : JS.extname (audioPath audio) = extA).
  { rewrite HpA. apply extname_scratch; auto; destruct HeA; subst; reflexivity. }
  assert (HxI : JS.extname (imagePath image) = extI).
  { rewrite HpI. apply extname_scratch; auto; destruct HeI; subst; reflexivity. }
  exists stemA, extA, stemI, extI.
  repeat split; auto; unfold formData; rewrite HxA, HxI;
    apply in_or_app; left; simpl; auto 10.
Qed.

Lemma scratch_paths_keep_extension_witness :
  exists stemA extA stemI extI : string,
    (name sampleAudio = stemA ++ extA /\ (extA = ".mp3" \/ extA = ".wav"))
    /\ (name sampleImage = stemI ++ extI /\ (extI = ".png" \/ extI = ".jpg"))
    /\ audioPath sampleAudio = "./.tmp/" ++ Sha256.sha256hex (url sampleAudio) ++ extA
    /\ imagePath sampleImage = "./.tmp/" ++ Sha256.sha256hex (url sampleImage) ++ extI
    /\ (String.length (Sha256.sha256hex (url sampleAudio)) = 64
        /\ allHex (Sha256.sha256hex (url sampleAudio)) = true)
    /\ (String.length (Sha256.sha256hex (url sampleImage)) = 64
        /\ allHex (Sha256.sha256hex (url sampleImage)) = true)
    /\ JS.extname (audioPath sampleAudio) = extA
    /\ JS.extname (imagePath sampleImage) = extI
    /\ (forall (urls : Urls) (tagsString : string),
          In (File "track" (audioPath sampleAudio) ("track" ++ extA))
             (formData "Test Song" urls (audioPath sampleAudio) (imagePath sampleImage)
                tagsString)
          /\ In (File "cover" (imagePath sampleImage) ("cover" ++ extI))
               (formData "Test Song" urls (audioPath sampleAudio) (imagePath sampleImage)
                  tagsString)).
Proof.
  exact (scratch_paths_keep_extension sampleRequest sampleAudio sampleImage "Test Song"
           sampleRequest_accepted).
Defined.

(** ** The checks before the prompt (lines 96-126) *)

Lemma endsWith_not (s suffix : string) :
  ~ (exists stem, s = stem ++ suffix) -> JS.endsWith s suffix = false.
Proof.
  intros H. destruct (JS.endsWith s suffix) eqn:E; [|reflexivity].
  exfalso. apply H. now apply endsWith_iff.
Qed.

(** X2: the checks are made in the order channel, presence of the three
    required options, audio extension, image extension; the first one that
    fails is answered with its own message, marked ephemeral, and the command
    returns having done nothing else (no prompt, no file, no request). The
    extensions are compared as written: a name in capitals does not pass. *)
Theorem validation_first_failure (cfg : Config) (w : World) (i : Interaction) :
  (channelSendable i = false ->
   run cfg w i
   = ([DeferReply; Respond "I cannot send messages in this channel" true], Returned))
  /\ (channelSendable i = true ->
      audioOption i = None \/ imageOption i = None \/ titleOption i = None ->
      run cfg w i
      = ([DeferReply;
          Respond "You must provide both an audio and image file, and a title" true],
         Returned))
  /\ (forall (audio image : Attachment) (title : string),
        channelSendable i = true ->
        audioOption i = Some audio -> imageOption i = Some image ->
        titleOption i = Some title ->
        ~ (exists stem, name audio = stem ++ ".mp3") ->
        ~ (exists stem, name audio = stem ++ ".wav") ->
        run cfg w i
        = ([DeferReply; Respond "The audio file must be an mp3 or wav file" true],
           Returned))
  /\ (forall (audio image : Attachment) (title : string),
        channelSendable i = true ->
        audioOption i = Some audio -> imageOption i = Some image ->
        titleOption i = Some title ->
        (exists stem, name audio = stem ++ ".mp3" \/ name audio = stem ++ ".wav") ->
        ~ (exists stem, name image = stem ++ ".png") ->
        ~ (exists stem, name image = stem ++ ".jpg") ->
        run cfg w i
        = ([DeferReply; Respond "The image file must be a png or jpg file" true],
           Returned)).
Proof.
  unfold run, command. repeat split.
  - intros ->. reflexivity.
  - intros -> H.
    destruct (audioOption i); [|reflexivity].
    destruct (imageOption i); [|reflexivity].
    destruct (titleOption i); [|reflexivity].
    destruct H as [H | [H | H]]; discriminate.
  - intros audio image title -> -> -> -> H3 H4.
    rewrite (endsWith_not _ _ H3), (endsWith_not _ _ H4). reflexivity.
  - intros audio image title -> -> -> -> [stem Ha] H3 H4.
    rewrite (endsWith_not _ _ H3), (endsWith_not _ _ H4).
    assert (E : negb (JS.endsWith (name audio) ".mp3")
                && negb (JS.endsWith (name audio) ".wav") = false).
    { rewrite <- negb_orb. apply negb_false_iff, orb_true_iff.
      destruct Ha as [Ha | Ha]; [left | right]; apply endsWith_iff; eauto. }
    simpl negb at 1. cbv iota. rewrite E. reflexivity.
Qed.

(** The sample request with its audio file named in capitals. *)
Lemma validation_first_failure_witness :
  run sampleConfig sampleWorld
    {| userId := "42"; channelSendable := true;
       audioOption := Some {| name := "SONG.MP3"; url := "https://cdn.example/a.mp3" |};
       imageOption := Some sampleImage;
       titleOption := Some "Test Song"; descriptionOption := None;
       tagsOption := None |}
  = ([DeferReply; Respond "The audio file must be an mp3 or wav file" true], Returned).
Proof.
  apply (proj1 (proj2 (proj2 (validation_first_failure sampleConfig sampleWorld _)))
           {| name := "SONG.MP3"; url := "https://cdn.example/a.mp3" |}
           sampleImage "Test Song");
    try reflexivity;
    intros H; apply (proj2 (endsWith_iff _ _)) in H; discriminate.
Defined.

(** ** Whose presses count (line 151) *)

Lemma foreign_step (ids : Ids) (requester user customId : string) (g : Gate.t) :
  String.eqb user requester = false ->
  Gate.step ids requester g (Collect user customId) = g.
Proof. intros Hu. simpl. rewrite Hu. now destruct (Gate.ended g). Qed.

Lemma foreign_filter (ids : Ids) (requester : string) (es : list GateInput) :
  forall g : Gate.t,
    Gate.run ids requester g (filter (fun e => negb (foreign requester e)) es)
    = Gate.run ids requester g es.
Proof.
  induction es as [|e es IH]; intros g; [reflexivity|].
  simpl filter. destruct (foreign requester e) eqn:Hf; simpl negb; cbv iota.
  - rewrite run_cons, IH. f_equal.
    destruct e as [u c | |]; simpl in Hf; try discriminate.
    symmetry. apply foreign_step. now apply negb_true_iff.
  - rewrite !run_cons. apply IH.
Qed.

(** X3: the presses of anybody but the requester are filtered out: such a
    press leaves the gate as it is, and taking them all away from what arrives
    changes neither the state of the gate nor anything the command does. *)
Theorem gate_ignores_others (cfg : Config) (w : World) (i : Interaction) :
  (forall (user customId : string) (g : Gate.t),
     user <> userId i ->
     Gate.step (uuids w) (userId i) g (Collect user customId) = g)
  /\ confirmation
       (withPresses (filter (fun e => negb (foreign (userId i) e)) (presses w)) w) i
     = confirmation w i
  /\ run cfg (withPresses (filter (fun e => negb (foreign (userId i) e)) (presses w)) w) i
     = run cfg w i.
Proof.
  split; [|split].
  - intros user customId g Hne. apply foreign_step. now apply String.eqb_neq.
  - unfold confirmation. apply foreign_filter.
  - destruct w as [ids es af imf ff yt sc fc st].
    unfold run, command, gated, confirmation, withPresses.
    cbn [uuids presses audioFetch imageFetch ffmpeg youtube soundcloud feedChannel site].
    rewrite foreign_filter. reflexivity.
Qed.

Lemma gate_ignores_others_witness :
  Gate.step sampleIds "42" Gate.init (Collect "7" "3f2c") = Gate.init.
Proof.
  apply (proj1 (gate_ignores_others sampleConfig sampleWorld sampleRequest)).
  discriminate.
Defined.

(** ** What the gate tells the requester (lines 154-171) *)

Section Phases.

Variable ids : Ids.
Variable requester : string.

Lemma answered_step (g : Gate.t) (e : GateInput) :
  answered g -> answered (Gate.step ids requester g e).
Proof.
  intros (Hp & Hl & Hn). split; [now apply pressed_step|].
  destruct Hp as (Ht & _ & _).
  destruct g as [t en res p l]; simpl in *; subst t.
  destruct e as [u c | ok |]; simpl.
  - destruct en; simpl; [auto|].
    destruct (String.eqb u requester); simpl; [|auto].
    unfold Gate.onCollect; simpl.
    destruct (String.eqb c (yes ids)); simpl.
    { split; [apply Forall_app; split; [exact Hl | repeat constructor]|].
      intros _ H. now apply app_eq_nil in H as [_ H]. }
    destruct (String.eqb c (no ids)); simpl; [|auto].
    split; [apply Forall_app; split; [exact Hl | repeat constructor]|].
    intros _ H. now apply app_eq_nil in H as [_ H].
  - unfold Gate.resume; simpl. destruct p as [|d p]; simpl; [auto|].
    assert (Hne : l <> []) by (apply Hn; right; discriminate).
    destruct ok; simpl; [|auto].
    unfold Gate.stop; simpl.
    destruct en; simpl; unfold Gate.resolve; simpl; destruct res; simpl; auto.
  - unfold Gate.stop; simpl. destruct en; simpl; auto.
Qed.

Lemma phase_step (g : Gate.t) (e : GateInput) :
  phase g -> phase (Gate.step ids requester g e).
Proof.
  intros [Hi | [Hx | Ha]].
  - destruct g as [t en res p l]. destruct Hi as (Ht & He & Hr & Hp & Hl).
    simpl in *; subst.
    destruct e as [u c | ok |]; simpl.
    + destruct (String.eqb u requester); simpl; [|left; repeat split].
      right; right. unfold Gate.onCollect; simpl.
      destruct (String.eqb c (yes ids)); simpl.
      { repeat split; simpl; try discriminate; try (repeat constructor).
        intros [H | H]; [discriminate | exact H]. }
      destruct (String.eqb c (no ids)); simpl.
      { repeat split; simpl; try discriminate; try (repeat constructor).
        intros [H | H]; [discriminate | exact H]. }
      repeat split; simpl; try discriminate; auto.
      intros [H | H]; now contradiction H.
    + left. repeat split.
    + right; left. repeat split.
  - right; left.
    replace (Gate.step ids requester g e) with g; [exact Hx|].
    destruct Hx as (_ & He & Hp & _).
    destruct g as [t en res p l]; simpl in *; subst. destruct e; reflexivity.
  - right; right. now apply answered_step.
Qed.

Lemma phase_run (es : list GateInput) (g : Gate.t) :
  phase g -> phase (Gate.run ids requester g es).
Proof.
  revert g. induction es as [|e es IH]; intros g H; [exact H|].
  rewrite run_cons. apply IH. now apply phase_step.
Qed.

End Phases.

(** X4: the requester is told that the time is over exactly when the gate is
    resolved by its end listener, and then the gate has done nothing else: the
    prompt is not deleted. A gate resolved by a press has only asked for
    deletions of the prompt, at least one, and has sent no such message. *)
Theorem followUp_iff_timedOut (ids : Ids) (requester : string) (es : list GateInput) :
  let g := Gate.run ids requester Gate.init es in
  (Gate.resolved g = Some TimedOut
   <-> In (FollowUp "You took too long to respond" true) (Gate.log g))
  /\ (Gate.resolved g = Some TimedOut ->
      Gate.log g = [FollowUp "You took too long to respond" true])
  /\ (forall r : Resolution,
        Gate.resolved g = Some r -> r <> TimedOut ->
        Forall (eq PromptDelete) (Gate.log g) /\ Gate.log g <> []).
Proof.
  intros g.
  assert (H : phase g).
  { apply phase_run. left. repeat split. }
  destruct H as [(_ & _ & Hr & _ & Hl) | [(Hr & _ & _ & Hl) | ((_ & Hr & _) & Hl & Hn)]].
  - rewrite Hr, Hl. repeat split; intros; try discriminate; try contradiction.
  - rewrite Hr, Hl. repeat split; intros; try congruence; auto. now left.
  - repeat split; intros; try contradiction; auto.
    + exfalso. rewrite Forall_forall in Hl.
      match goal with H : In _ _ |- _ => apply Hl in H; discriminate end.
    + apply Hn. left. congruence.
Qed.

Lemma followUp_iff_timedOut_witness :
  Gate.log (Gate.run sampleIds "42" Gate.init [Collect "7" "9b1e"; TimeExpired])
  = [FollowUp "You took too long to respond" true].
Proof.
  apply (proj1 (proj2 (followUp_iff_timedOut sampleIds "42"
                         [Collect "7" "9b1e"; TimeExpired]))).
  reflexivity.
Defined.

(** ** What it takes to start the pipeline (lines 150-179) *)

Lemma confirmed_step (ids : Ids) (requester : string) (g : Gate.t) (e : GateInput) :
  Gate.resolved (Gate.step ids requester g e) = Some Confirmed
  \/ In Confirmed (Gate.pending (Gate.step ids requester g e)) ->
  (Gate.resolved g = Some Confirmed \/ In Confirmed (Gate.pending g))
  \/ e = Collect requester (yes ids).
Proof.
  destruct g as [t en res p l]. destruct e as [u c | ok |]; simpl.
  - destruct en; simpl; [auto|].
    destruct (String.eqb_spec u requester) as [-> | _]; simpl; [|auto].
    unfold Gate.onCollect; simpl.
    destruct (String.eqb_spec c (yes ids)) as [-> | _]; simpl; [auto|].
    destruct (String.eqb c (no ids)); simpl; [|auto].
    rewrite in_app_iff. simpl. intros [H | [H | [H | []]]]; auto; discriminate.
  - unfold Gate.resume; simpl. destruct p as [|d p]; simpl; [auto|].
    destruct ok; simpl; [|intuition].
    unfold Gate.stop; simpl.
    destruct en; simpl; [|destruct t; simpl];
      unfold Gate.resolve; simpl; destruct res; simpl;
      intros [H | H]; auto; inversion H; auto.
  - unfold Gate.stop; simpl. destruct en; simpl; [auto|].
    unfold Gate.onEnd; simpl. destruct t; simpl; [|auto].
    unfold Gate.resolve; simpl. destruct res; simpl; auto.
    intros [H | H]; [discriminate | auto].
Qed.

Lemma confirmed_run (ids : Ids) (requester : string) (es : list GateInput) :
  forall g : Gate.t,
    Gate.resolved (Gate.run ids requester g es) = Some Confirmed
    \/ In Confirmed (Gate.pending (Gate.run ids requester g es)) ->
    (Gate.resolved g = Some Confirmed \/ In Confirmed (Gate.pending g))
    \/ In (Collect requester (yes ids)) es.
Proof.
  induction es as [|e es IH]; intros g H; [left; exact H|].
  rewrite run_cons in H. apply IH in H as [H | H]; [|right; now right].
  apply confirmed_step in H as [H | H]; [left; exact H | right; now left].
Qed.

Lemma existsb_none {A : Type} (f : A -> bool) (l : list A) :
  Forall (fun x => f x = false) l -> existsb f l = false.
Proof. induction 1 as [|x l Hx _ IH]; simpl; [reflexivity | now rewrite Hx, IH]. Qed.

(** X5: a run touches the network or the file system only after the gate was
    resolved as confirmed, which takes a press of the requester on the Yes
    button and a deletion of the prompt that succeeded. *)
Theorem pipeline_needs_confirmation (cfg : Config) (w : World) (i : Interaction) :
  existsb outside (trace cfg w i) = true ->
  Gate.resolved (confirmation w i) = Some Confirmed
  /\ In (Collect (userId i) (yes (uuids w))) (presses w)
  /\ In (DeleteSettled true) (presses w).
Proof.
  intros H.
  assert (Hc : Gate.resolved (confirmation w i) = Some Confirmed).
  { destruct (ofGate_none _ (confirmation_ofGate w i)) as (_ & _ & _ & _ & Ho).
    destruct (command_checks w i) as [[m Hm] | (audio & image & title & Hacc)].
    - unfold trace, run in H. rewrite Hm in H. discriminate.
    - destruct (Gate.resolved (confirmation w i)) as [r|] eqn:Hg.
      + destruct r; try reflexivity; exfalso; unfold trace in H;
          rewrite (run_cancelled cfg w i audio image title Hacc _ Hg eq_refl) in H;
          rewrite existsb_none in H; try discriminate; simpl fst; all_effects.
      + exfalso. unfold trace in H.
        rewrite (run_suspended cfg w i audio image title Hacc Hg) in H.
        rewrite existsb_none in H; [discriminate|]. simpl fst. all_effects. }
  split; [exact Hc|]. split.
  - unfold confirmation in Hc.
    destruct (confirmed_run _ _ _ Gate.init (or_introl Hc)) as [[H' | H'] | H'];
      [discriminate | contradiction | exact H'].
  - unfold confirmation in Hc.
    destruct (in_dec GateInput_eq_dec (DeleteSettled true) (presses w)) as [Hd | Hd];
      [exact Hd|].
    destruct (undeleted_run (uuids w) (userId i) _ Gate.init Hd (or_introl eq_refl));
      congruence.
Qed.

Lemma pipeline_needs_confirmation_witness :
  Gate.resolved (confirmation sampleWorld sampleRequest) = Some Confirmed
  /\ In (Collect "42" "3f2c") (presses sampleWorld)
  /\ In (DeleteSettled true) (presses sampleWorld).
Proof.
  apply (pipeline_needs_confirmation sampleConfig sampleWorld sampleRequest).
  vm_compute. reflexivity.
Defined.

(** ** Cleanup where the callback reaches it (lines 219-245) *)

Section Reached.

Variable cfg : Config.
Variable w : World.
Variable i : Interaction.
Variables audioPath imagePath videoPath title description tagsString : string.
Variable tags : list string.

Lemma transcode_encoded :
  (canUseYoutube cfg = true -> ffmpeg w = ExecOk) ->
  transcode cfg w i audioPath imagePath videoPath title description tagsString tags
  = (let (l, x) :=
       callback cfg w i audioPath imagePath videoPath title description tagsString tags
         ExecOk in
     (((if canUseYoutube cfg
        then [Exec (ffmpegCommand imagePath audioPath videoPath)] else []) ++ l)%list, x)).
Proof.
  intros H. unfold transcode, bind, emit, ret.
  destruct (canUseYoutube cfg); [rewrite (H eq_refl)|]; cbv beta iota zeta;
    destruct (callback _ _ _ _ _ _ _ _ _ _ _); reflexivity.
Qed.

Lemma upload_unlinks_nothing :
  unlinked (fst (uploadToYoutubeAndSoundcloud cfg w i audioPath imagePath videoPath
                   title description tags)) = [].
Proof.
  run_steps.
  destruct (canUseYoutube cfg); simpl;
    [destruct (youtube w) as [yt|]; simpl; [|reflexivity];
     destruct (uploaded yt); simpl; [|reflexivity]|];
    (destruct (canUseSoundcloud cfg); simpl;
     [destruct (soundcloud w); simpl; [|reflexivity]|]);
    destruct (feedChannel w) as [[|]|]; reflexivity.
Qed.

(** Lines 226-245: the callback that got past the uploads ends with the
    cleanup. *)
Lemma callback_reaches_cleanup (l : list Effect) (o : option Urls) :
  uploadToYoutubeAndSoundcloud cfg w i audioPath imagePath videoPath
    title description tags = (l, Next o) ->
  exists mid : list Effect,
    callback cfg w i audioPath imagePath videoPath title description tagsString tags
      ExecOk
    = ((l ++ mid
          ++ map Unlink ((if canUseYoutube cfg then [videoPath] else [])
                           ++ [audioPath; imagePath]))%list, Next tt)
    /\ unlinked mid = [].
Proof.
  intros H. unfold callback, catch. rewrite H.
  destruct o as [urls|]; unfold bind, emit; rewrite ?deleteTemporaryFiles_unlinks.
  - destruct (site w);
      eexists [OpenAsBlob audioPath; OpenAsBlob imagePath; FetchHMAC _ _ _; _];
      (split; [destruct (canUseYoutube cfg); reflexivity | reflexivity]).
  - exists []. split; [|reflexivity]. destruct (canUseYoutube cfg); reflexivity.
Qed.

End Reached.

(** A confirmed run whose two downloads are stored and whose encoder, if it is
    used, succeeds: the effects up to the callback, then the callback. *)
Lemma run_reached (cfg : Config) (w : World) (i : Interaction)
    (audio image : Attachment) (title : string) (r : Resolution)
    (s s' : nat) (b b' : string) :
  accepted i audio image title ->
  Gate.resolved (confirmation w i) = Some r -> result r = true ->
  audioFetch w = Response s b -> imageFetch w = Response s' b' ->
  (canUseYoutube cfg = true -> ffmpeg w = ExecOk) ->
  run cfg w i
  = (let (l, x) :=
       finish (callback cfg w i (audioPath audio) (imagePath image) (videoPath i)
                 title (descriptionOf i) (tagsStringOf i) (parseTags (tagsStringOf i))
                 ExecOk) in
     ((prelude w i title ++ Gate.log (confirmation w i)
         ++ [Mkdir ".tmp"; Fetch (url audio); WriteFile (audioPath audio) b;
             Fetch (url image); WriteFile (imagePath image) b']
         ++ (if canUseYoutube cfg
             then [Exec (ffmpegCommand (imagePath image) (audioPath audio) (videoPath i))]
             else [])
         ++ l)%list, x)).
Proof.
  intros Hacc Hg Hr Ha Him Hf.
  rewrite (run_confirmed cfg w i audio image title Hacc r Hg Hr).
  rewrite (pipeline_downloaded _ _ _ _ _ _ _ _ _ _ _ _ _ Ha Him).
  rewrite (transcode_encoded _ _ _ _ _ _ _ _ _ _ Hf).
  destruct (callback _ _ _ _ _ _ _ _ _ _ _) as [l [[]|x]];
    cbv beta iota zeta delta [finish];
    destruct (canUseYoutube cfg); simpl; rewrite <- ?app_assoc; reflexivity.
Qed.

(** Membership in a trace given as appended segments: [tac] closes the goal
    at the segment, or at the cell, that holds the effect. *)
Ltac in_trace tac :=
  first [ solve [tac]
        | apply in_or_app; right; in_trace tac
        | apply in_or_app; left; in_trace tac
        | right; in_trace tac ].

Lemma unlinked_but_feed (l : list Effect) :
  unlinked (filter (fun e => negb (ofFeed e)) l) = unlinked l.
Proof. induction l as [|[] l IH]; simpl; congruence. Qed.

(** X6: when both files are stored, the encoder (if it is used) succeeds and no
    publish target throws, the run unlinks the scratch files, each once: the
    video file when the video target is on, then the audio and the image file;
    and, the effects of the feed apart (its message is not awaited), these
    unlinks are the last thing the run does. This holds whether URLs were
    returned or the video was refused, and whatever the site answers to the
    submission. *)
Theorem cleanup_after_publishing (cfg : Config) (w : World) (i : Interaction)
    (audio image : Attachment) (title : string) (r : Resolution)
    (s s' : nat) (b b' : string) (l : list Effect) (o : option Urls) :
  accepted i audio image title ->
  Gate.resolved (confirmation w i) = Some r -> result r = true ->
  audioFetch w = Response s b -> imageFetch w = Response s' b' ->
  (canUseYoutube cfg = true -> ffmpeg w = ExecOk) ->
  uploadToYoutubeAndSoundcloud cfg w i (audioPath audio) (imagePath image) (videoPath i)
    title (descriptionOf i) (parseTags (tagsStringOf i)) = (l, Next o) ->
  unlinked (trace cfg w i)
  = ((if canUseYoutube cfg then [videoPath i] else [])
       ++ [audioPath audio; imagePath image])%list
  /\ (exists before : list Effect,
        filter (fun e => negb (ofFeed e)) (trace cfg w i)
        = (before
             ++ map Unlink ((if canUseYoutube cfg then [videoPath i] else [])
                              ++ [audioPath audio; imagePath image]))%list
        /\ unlinked before = [])
  /\ snd (run cfg w i) = Returned.
Proof.
  intros Hacc Hg Hr Ha Him Hf Hu.
  destruct (ofGate_none _ (confirmation_ofGate w i)) as (_ & _ & Hgl & _ & _).
  pose proof (upload_unlinks_nothing cfg w i (audioPath audio) (imagePath image)
                (videoPath i) title (descriptionOf i) (parseTags (tagsStringOf i))) as Hl.
  rewrite Hu in Hl. simpl in Hl.
  destruct (callback_reaches_cleanup cfg w i _ _ _ title (descriptionOf i) (tagsStringOf i)
              (parseTags (tagsStringOf i)) l o Hu) as (mid & Hc & Hmid).
  unfold trace.
  rewrite (run_reached cfg w i audio image title r s s' b b' Hacc Hg Hr Ha Him Hf), Hc.
  cbv beta iota zeta delta [finish fst snd].
  assert (Hun : unlinked
                  (prelude w i title ++ Gate.log (confirmation w i)
                     ++ [Mkdir ".tmp"; Fetch (url audio); WriteFile (audioPath audio) b;
                         Fetch (url image); WriteFile (imagePath image) b']
                     ++ (if canUseYoutube cfg
                         then [Exec (ffmpegCommand (imagePath image) (audioPath audio)
                                       (videoPath i))]
                         else [])
                     ++ l ++ mid) = []).
  { rewrite !unlinked_app, Hgl, Hl, Hmid. destruct (canUseYoutube cfg); reflexivity. }
  split; [|split; [|reflexivity]].
  - rewrite !app_assoc. rewrite unlinked_app. rewrite <- !app_assoc.
    rewrite Hun. destruct (canUseYoutube cfg); reflexivity.
  - exists (filter (fun e => negb (ofFeed e))
              (prelude w i title ++ Gate.log (confirmation w i)
                 ++ [Mkdir ".tmp"; Fetch (url audio); WriteFile (audioPath audio) b;
                     Fetch (url image); WriteFile (imagePath image) b']
                 ++ (if canUseYoutube cfg
                     then [Exec (ffmpegCommand (imagePath image) (audioPath audio)
                                   (videoPath i))]
                     else [])
                 ++ l ++ mid)).
    split; [|now rewrite unlinked_but_feed].
    rewrite !app_assoc. rewrite filter_app. rewrite <- !app_assoc. f_equal.
    destruct (canUseYoutube cfg); reflexivity.
Qed.

Lemma cleanup_after_publishing_witness :
  unlinked (trace sampleConfig (withSite (Rejects "Error: 500") sampleWorld) sampleRequest)
  = [videoPath sampleRequest; audioPath sampleAudio; imagePath sampleImage].
Proof.
  eapply (proj1 (cleanup_after_publishing sampleConfig
                   (withSite (Rejects "Error: 500") sampleWorld)
                   sampleRequest sampleAudio sampleImage "Test Song" Confirmed
                   200 200 "AUDIO" "IMAGE" _ _
                   sampleRequest_accepted eq_refl eq_refl eq_refl eq_refl
                   (fun _ => eq_refl) eq_refl)).
Defined.

(** ** The notification of the feed (lines 44-52) *)

Lemma feed_pipeline (cfg : Config) (w : World) (i : Interaction) (f : Outcome bool)
    (audio image : Attachment) (title description tagsString : string)
    (tags : list string) :
  let quietly := filter (fun e => negb (ofFeed e)) in
  snd (pipeline cfg (withFeedChannel f w) i audio image title description tagsString tags)
  = snd (pipeline cfg w i audio image title description tagsString tags)
  /\ quietly (fst (pipeline cfg (withFeedChannel f w) i audio image title description
                    tagsString tags))
     = quietly (fst (pipeline cfg w i audio image title description tagsString tags)).
Proof.
  run_steps. unfold withFeedChannel.
  cbn [uuids presses audioFetch imageFetch ffmpeg youtube soundcloud feedChannel site].
  destruct (audioFetch w); simpl; [split; reflexivity|].
  destruct (imageFetch w); simpl; [split; reflexivity|].
  destruct (canUseYoutube cfg); simpl;
    [ destruct (ffmpeg w); simpl; [|split; reflexivity];
      destruct (youtube w) as [yt|]; simpl; [|split; reflexivity];
      destruct (uploaded yt); simpl; [|split; reflexivity]
    | ];
    (destruct (canUseSoundcloud cfg); simpl;
     [destruct (soundcloud w); simpl; [|split; reflexivity]|]);
    destruct f as [[|]|], (feedChannel w) as [[|]|]; simpl;
    destruct (site w); simpl; split; reflexivity.
Qed.

(** X7: the feed is a side notification. Whatever the feed channel answers
    (sendable, not sendable, or an error), the run ends the same way and does
    the same things, the request for the channel, the message and the line on
    the console apart. *)
Theorem feed_never_matters (cfg : Config) (w : World) (i : Interaction)
    (f : Outcome bool) :
  let quietly := filter (fun e => negb (ofFeed e)) in
  snd (run cfg (withFeedChannel f w) i) = snd (run cfg w i)
  /\ quietly (trace cfg (withFeedChannel f w) i) = quietly (trace cfg w i).
Proof.
  intros quietly.
  destruct (command_checks w i) as [[m Hm] | (audio & image & title & Hacc)].
  - destruct (command_checks (withFeedChannel f w) i) as [[m' Hm'] | (a & im & t & Hacc)].
    + unfold trace, run. rewrite Hm, Hm'. split; [reflexivity|].
      specialize (Hm cfg). specialize (Hm' cfg).
      unfold command in Hm, Hm'.
      destruct (channelSendable i); simpl in *; [|congruence].
      destruct (audioOption i) as [a|]; [|congruence].
      destruct (imageOption i) as [im|]; [|congruence].
      destruct (titleOption i) as [t|]; [|congruence].
      destruct (negb (JS.endsWith (name a) ".mp3") && negb (JS.endsWith (name a) ".wav"));
        [congruence|].
      destruct (negb (JS.endsWith (name im) ".png") && negb (JS.endsWith (name im) ".jpg"));
        [congruence|].
      exfalso. unfold bind, emit in Hm. simpl in Hm.
      destruct (gated _ _ _) as [l x] in Hm. discriminate.
    + exfalso. specialize (Hm cfg). rewrite (command_accepted cfg w i a im t Hacc) in Hm.
      unfold bind, emits, prelude in Hm. destruct (gated _ _ _) as [l x] in Hm.
      discriminate.
  - pose proof (feed_pipeline cfg w i f audio image title (descriptionOf i)
                  (tagsStringOf i) (parseTags (tagsStringOf i))) as [Hs Hq].
    fold quietly in Hq.
    destruct (Gate.resolved (confirmation w i)) as [r|] eqn:Hg.
    + destruct (result r) eqn:Hr.
      * unfold trace.
        rewrite (run_confirmed cfg w i audio image title Hacc r Hg Hr).
        rewrite (run_confirmed cfg (withFeedChannel f w) i audio image title Hacc r Hg Hr).
        change (confirmation (withFeedChannel f w) i) with (confirmation w i).
        change (prelude (withFeedChannel f w) i title) with (prelude w i title).
        destruct (pipeline cfg w _ _ _ _ _ _ _) as [l [[]|x]];
          destruct (pipeline cfg (withFeedChannel f w) _ _ _ _ _ _ _) as [l' [[]|x']];
          simpl in *; try discriminate; subst;
          unfold quietly; rewrite !filter_app; fold quietly; rewrite ?Hq; split; congruence.
      * unfold trace.
        rewrite (run_cancelled cfg w i audio image title Hacc r Hg Hr).
        rewrite (run_cancelled cfg (withFeedChannel f w) i audio image title Hacc r Hg Hr).
        split; reflexivity.
    + unfold trace.
      rewrite (run_suspended cfg w i audio image title Hacc Hg).
      rewrite (run_suspended cfg (withFeedChannel f w) i audio image title Hacc Hg).
      split; reflexivity.
Qed.

(** ** Once at most, and one answer *)

Lemma onceCalls_app (l l' : list Effect) :
  onceCalls (l ++ l') = (onceCalls l ++ onceCalls l')%list.
Proof. unfold onceCalls. now rewrite map_app, filter_app. Qed.

Lemma responses_app (l l' : list Effect) :
  responses (l ++ l') = (responses l ++ responses l')%list.
Proof. induction l as [|[] l IH]; simpl; congruence. Qed.

Lemma ofGate_silent (l : list Effect) :
  Forall ofGate l -> onceCalls l = [] /\ responses l = [].
Proof.
  induction 1 as [|e l He _ [Ho Hr]]; [split; reflexivity|].
  destruct e; simpl in He; try contradiction; simpl; auto.
Qed.

Lemma distinctb_NoDup (l : list nat) : distinctb l = true -> NoDup l.
Proof.
  induction l as [|x l IH]; simpl; [constructor|]. intros H.
  apply andb_true_iff in H as [Hx Hl]. constructor; [|now apply IH].
  intros Hin. apply negb_true_iff in Hx.
  assert (He : existsb (Nat.eqb x) l = true)
    by (apply existsb_exists; exists x; split; [exact Hin | apply Nat.eqb_refl]).
  congruence.
Qed.

Section Counting.

Variable cfg : Config.
Variable w : World.
Variable i : Interaction.
Variables audio image : Attachment.
Variables title description tagsString : string.
Variable tags : list string.

Local Abbreviation pipe :=
  (pipeline cfg w i audio image title description tagsString tags).

Lemma pipeline_once :
  distinctb (1 :: 2 :: onceCalls (fst pipe))
  && (List.length (fetched (fst pipe)) <=? 2)%nat
  && (List.length (unlinked (fst pipe)) <=? 3)%nat = true.
Proof.
  run_steps.
  destruct (audioFetch w); simpl; [reflexivity|].
  destruct (imageFetch w); simpl; [reflexivity|].
  destruct (canUseYoutube cfg); simpl;
    [ destruct (ffmpeg w); simpl; [|reflexivity];
      destruct (youtube w) as [yt|]; simpl; [|reflexivity];
      destruct (uploaded yt); simpl; [|reflexivity]
    | ];
    (destruct (canUseSoundcloud cfg); simpl;
     [destruct (soundcloud w); simpl; [|reflexivity]|]);
    destruct (feedChannel w) as [[|]|]; simpl;
    destruct (site w); reflexivity.
Qed.

Lemma pipeline_answers :
  List.length (responses (fst pipe))
  = match snd (finish pipe) with Returned => 1 | _ => 0 end.
Proof.
  run_steps.
  destruct (audioFetch w); simpl; [reflexivity|].
  destruct (imageFetch w); simpl; [reflexivity|].
  destruct (canUseYoutube cfg); simpl;
    [ destruct (ffmpeg w); simpl; [|reflexivity];
      destruct (youtube w) as [yt|]; simpl; [|reflexivity];
      destruct (uploaded yt); simpl; [|reflexivity]
    | ];
    (destruct (canUseSoundcloud cfg); simpl;
     [destruct (soundcloud w); simpl; [|reflexivity]|]);
    destruct (feedChannel w) as [[|]|]; simpl;
    destruct (site w); reflexivity.
Qed.

End Counting.

(** X10: nothing is tried twice. In any run the reply is deferred, the prompt
    sent, the scratch folder made, the encoder started, each platform, the feed
    channel and the site called once at most; at most two fetches are made and
    at most three files unlinked. *)
Theorem nothing_twice (cfg : Config) (w : World) (i : Interaction) :
  NoDup (onceCalls (trace cfg w i))
  /\ List.length (fetched (trace cfg w i)) <= 2
  /\ List.length (unlinked (trace cfg w i)) <= 3.
Proof.
  destruct (ofGate_none _ (confirmation_ofGate w i)) as (Hf & _ & Hu & _ & _).
  destruct (ofGate_silent _ (confirmation_ofGate w i)) as [Ho _].
  assert (H : distinctb (onceCalls (trace cfg w i))
              && (List.length (fetched (trace cfg w i)) <=? 2)%nat
              && (List.length (unlinked (trace cfg w i)) <=? 3)%nat = true).
  { by_trace_shape w i;
      rewrite ?onceCalls_app, ?fetched_app, ?unlinked_app, ?Ho, ?Hf, ?Hu;
      try reflexivity.
    apply pipeline_once. }
  apply andb_true_iff in H as [H H3]. apply andb_true_iff in H as [H1 H2].
  apply Nat.leb_le in H2, H3. split; [now apply distinctb_NoDup | split; assumption].
Qed.

(** X11: the requester gets one answer through [respond] from a run that
    returns, whatever the path (turned down, cancelled, encoder or publish
    error, video refused, published), and none from a run that ends with an
    exception or waits for ever. *)
Theorem one_answer (cfg : Config) (w : World) (i : Interaction) :
  List.length (responses (trace cfg w i))
  = match snd (run cfg w i) with Returned => 1 | _ => 0 end.
Proof.
  destruct (ofGate_silent _ (confirmation_ofGate w i)) as [_ Hr].
  destruct (command_checks w i) as [[m Hm] | (audio & image & title & Hacc)].
  - unfold trace, run. rewrite Hm. reflexivity.
  - unfold trace. destruct (Gate.resolved (confirmation w i)) as [r|] eqn:Hg.
    + destruct (result r) eqn:Hres.
      * rewrite (run_confirmed cfg w i audio image title Hacc r Hg Hres).
        pose proof (pipeline_answers cfg w i audio image title (descriptionOf i)
                      (tagsStringOf i) (parseTags (tagsStringOf i))) as Hp.
        destruct (pipeline _ _ _ _ _ _ _ _ _) as [l [[]|x]]; simpl in *;
          rewrite responses_app, Hr; exact Hp.
      * rewrite (run_cancelled cfg w i audio image title Hacc r Hg Hres).
        simpl. rewrite responses_app, Hr. reflexivity.
    + rewrite (run_suspended cfg w i audio image title Hacc Hg).
      simpl. now rewrite Hr.
Qed.

(** ** The audio target (lines 23, 39-42) *)

Section AudioTarget.

Variable cfg : Config.
Variable w : World.
Variable i : Interaction.
Variables audio image : Attachment.
Variables title description tagsString : string.
Variable tags : list string.

Lemma pipeline_no_audio_call :
  canUseSoundcloud cfg = false ->
  soundcloudCalls
    (fst (pipeline cfg w i audio image title description tagsString tags)) = [].
Proof.
  intros Hc. run_steps. rewrite Hc.
  destruct (audioFetch w); simpl; [reflexivity|].
  destruct (imageFetch w); simpl; [reflexivity|].
  destruct (canUseYoutube cfg); simpl;
    [ destruct (ffmpeg w); simpl; [|reflexivity];
      destruct (youtube w) as [yt|]; simpl; [|reflexivity];
      destruct (uploaded yt); simpl; [|reflexivity]
    | ];
    destruct (feedChannel w) as [[|]|]; simpl;
    destruct (site w); reflexivity.
Qed.

Lemma upload_audio_disabled (a im v : string) (l : list Effect) (urls : Urls) :
  canUseSoundcloud cfg = false ->
  uploadToYoutubeAndSoundcloud cfg w i a im v title description tags
  = (l, Next (Some urls)) ->
  soundcloudUrl urls = placeholder.
Proof.
  intros Hc. run_steps. rewrite Hc.
  destruct (canUseYoutube cfg); simpl;
    [ destruct (youtube w) as [yt|]; simpl; [|discriminate];
      destruct (uploaded yt); simpl; [|discriminate]
    | ];
    destruct (feedChannel w) as [[|]|]; simpl; intros H; inversion H; reflexivity.
Qed.

(** Lines 28-41: the audio platform throws after the uploads before it. *)
Lemma callback_audio_threw (a im v : string) (err : string) :
  canUseSoundcloud cfg = true -> soundcloud w = Rejects err ->
  (canUseYoutube cfg = true ->
   exists ytData, youtube w = Resolves ytData /\ uploaded ytData = true) ->
  callback cfg w i a im v title description tagsString tags ExecOk
  = (((if canUseYoutube cfg
       then [YoutubeUpload title (youtubeDescription description tags) tags v]
       else [])
        ++ [SoundcloudUpload title (soundcloudDescription description tags) tags a im;
            Respond ("An error occurred while uploading the video" ++ fence err) true])%list,
     Stop Returned).
Proof.
  intros Hc Hs Hy. run_steps. rewrite Hc, Hs.
  destruct (canUseYoutube cfg); simpl; [|reflexivity].
  destruct (Hy eq_refl) as (yt & -> & Hu). simpl. rewrite Hu. reflexivity.
Qed.

End AudioTarget.

(** X8: with the audio target off, no run calls the audio platform, and the
    audio URL of whatever the publish stage returns is the placeholder
    https://example.com/; with both targets off the publish stage calls no
    platform at all and still returns URLs, the placeholder twice: it asks for
    the feed channel and, when the channel is sendable, the feed is told of an
    upload by the requester with that title and the placeholder as both URLs;
    when the channel is not sendable, or cannot be fetched, a line goes to the
    console instead. *)
Theorem audio_target_disabled (cfg : Config) (w : World) (i : Interaction) :
  canUseSoundcloud cfg = false ->
  soundcloudCalls (trace cfg w i) = []
  /\ (forall (audioPath imagePath videoPath title description : string)
             (tags : list string) (l : list Effect) (urls : Urls),
        uploadToYoutubeAndSoundcloud cfg w i audioPath imagePath videoPath
          title description tags = (l, Next (Some urls)) ->
        soundcloudUrl urls = "https://example.com/")
  /\ (canUseYoutube cfg = false ->
      forall (audioPath imagePath videoPath title description : string)
             (tags : list string),
        uploadToYoutubeAndSoundcloud cfg w i audioPath imagePath videoPath
          title description tags
        = ([FeedFetch (feed cfg);
            match feedChannel w with
            | Resolves true =>
                FeedSend ("Uploaded by <@" ++ userId i ++ ">" ++ nl
                          ++ "Title: " ++ title ++ nl
                          ++ "YouTube: https://example.com/" ++ nl
                          ++ "SoundCloud: https://example.com/")
            | Resolves false =>
                ConsoleError "Failed to send message to feed channel: Channel is not sendable"
            | Rejects err =>
                ConsoleError ("Failed to send message to feed channel " ++ err)
            end],
           Next (Some {| youtubeUrl := "https://example.com/";
                         soundcloudUrl := "https://example.com/" |}))).
Proof.
  intros Hc. split; [|split].
  - destruct (ofGate_none _ (confirmation_ofGate w i)) as (_ & _ & _ & Hs & _).
    by_trace_shape w i; rewrite ?soundcloudCalls_app, ?Hs; try reflexivity.
    now rewrite pipeline_no_audio_call.
  - intros a im v t d tags l urls. now apply upload_audio_disabled.
  - intros Hy a im v t d tags. run_steps. rewrite Hc, Hy. simpl.
    destruct (feedChannel w) as [[|]|]; reflexivity.
Qed.

Lemma audio_target_disabled_witness :
  soundcloudCalls
    (trace {| canUseYoutube := true; canUseSoundcloud := false; feed := "1100";
              siteUrl := fun path => "https://site.example" ++ path |}
       sampleWorld sampleRequest) = [].
Proof.
  apply (proj1 (audio_target_disabled
                  {| canUseYoutube := true; canUseSoundcloud := false; feed := "1100";
                     siteUrl := fun path => "https://site.example" ++ path |}
                  sampleWorld sampleRequest eq_refl)).
Defined.

(** X9: when the audio platform throws, the requester is told, and only that,
    in an ephemeral answer, that an error occurred while uploading the video,
    followed by the error of the audio platform between code fences; a video
    uploaded just before stays uploaded, and neither the feed nor the site
    hears of the run. *)
Theorem audio_failure_after_video (cfg : Config) (w : World) (i : Interaction)
    (audio image : Attachment) (title : string) (r : Resolution)
    (s s' : nat) (b b' err : string) :
  accepted i audio image title ->
  Gate.resolved (confirmation w i) = Some r -> result r = true ->
  audioFetch w = Response s b -> imageFetch w = Response s' b' ->
  (canUseYoutube cfg = true ->
   ffmpeg w = ExecOk
   /\ exists ytData, youtube w = Resolves ytData /\ uploaded ytData = true) ->
  canUseSoundcloud cfg = true -> soundcloud w = Rejects err ->
  snd (run cfg w i) = Returned
  /\ responses (trace cfg w i)
     = [("An error occurred while uploading the video"
           ++ nl ++ "```" ++ nl ++ err ++ nl ++ "```", true)]
  /\ videoUploads (trace cfg w i) = (if canUseYoutube cfg then [videoPath i] else [])
  /\ existsb ofFeed (trace cfg w i) = false
  /\ existsb ofSubmission (trace cfg w i) = false.
Proof.
  intros Hacc Hg Hr Ha Him Hy Hc Hs.
  assert (Hl : forall l, Forall ofGate l ->
                responses l = [] /\ existsb ofFeed l = false
                /\ existsb ofSubmission l = false).
  { induction 1 as [|e l He _ (H1 & H2 & H3)]; [repeat split|].
    destruct e; simpl in He; try contradiction; simpl; auto. }
  destruct (Hl _ (confirmation_ofGate w i)) as (Hr1 & Hr2 & Hr3).
  destruct (ofGate_no_video _ (confirmation_ofGate w i)) as [Hv _].
  unfold trace.
  rewrite (run_reached cfg w i audio image title r s s' b b' Hacc Hg Hr Ha Him
             (fun H => proj1 (Hy H))).
  rewrite (callback_audio_threw cfg w i _ _ _ _ _ _ _ err Hc Hs
             (fun H => proj2 (Hy H))).
  cbv beta iota zeta delta [finish fst snd]. unfold prelude.
  rewrite !responses_app, !videoUploads_app, !existsb_app, Hr1, Hr2, Hr3, Hv.
  destruct (canUseYoutube cfg); repeat split.
Qed.

Lemma audio_failure_after_video_witness :
  responses (trace sampleConfig (withSoundcloud (Rejects "Error: 401") sampleWorld)
               sampleRequest)
  = [("An error occurred while uploading the video"
        ++ nl ++ "```" ++ nl ++ "Error: 401" ++ nl ++ "```", true)].
Proof.
  apply (proj1 (proj2 (audio_failure_after_video sampleConfig
                         (withSoundcloud (Rejects "Error: 401") sampleWorld)
                         sampleRequest sampleAudio sampleImage "Test Song" Confirmed
                         200 200 "AUDIO" "IMAGE" "Error: 401"
                         sampleRequest_accepted eq_refl eq_refl eq_refl eq_refl
                         (fun _ => conj eq_refl (ex_intro _ sampleVideo (conj eq_refl eq_refl)))
                         eq_refl eq_refl))).
Defined.

(** ** What is reported after publishing (lines 44-57, 231-243) *)

Section Reported.

Variable cfg : Config.
Variable w : World.
Variable i : Interaction.
Variables audioPath imagePath videoPath title description tagsString : string.
Variable tags : list string.

(** A publish stage that returns URLs has answered nothing to the requester,
    and has sent the feed these URLs when the feed channel is sendable. *)
Lemma upload_returned_urls (l : list Effect) (urls : Urls) :
  uploadToYoutubeAndSoundcloud cfg w i audioPath imagePath videoPath
    title description tags = (l, Next (Some urls)) ->
  responses l = []
  /\ (feedChannel w = Resolves true ->
      In (FeedSend ("Uploaded by <@" ++ userId i ++ ">" ++ nl ++ "Title: " ++ title
                    ++ nl ++ "YouTube: " ++ youtubeUrl urls
                    ++ nl ++ "SoundCloud: " ++ soundcloudUrl urls)) l).
Proof.
  run_steps.
  destruct (canUseYoutube cfg); simpl;
    [ destruct (youtube w) as [yt|]; simpl; [|discriminate];
      destruct (uploaded yt); simpl; [|discriminate]
    | ];
    (destruct (canUseSoundcloud cfg); simpl;
     [destruct (soundcloud w); simpl; [|discriminate]|]);
    destruct (feedChannel w) as [[|]|]; simpl;
    intros H; inversion H; subst; simpl; split; try reflexivity;
    intros H'; try discriminate; auto 6.
Qed.

(** Lines 231-245 with the answer of the site spelled out. *)
Lemma callback_submitted (l : list Effect) (urls : Urls) :
  uploadToYoutubeAndSoundcloud cfg w i audioPath imagePath videoPath
    title description tags = (l, Next (Some urls)) ->
  callback cfg w i audioPath imagePath videoPath title description tagsString tags ExecOk
  = ((l ++ [OpenAsBlob audioPath; OpenAsBlob imagePath;
            FetchHMAC (siteUrl cfg "/api/sound") "POST"
              (formData title urls audioPath imagePath tagsString);
            match site w with
            | Resolves _ =>
                Respond ("Uploaded to YouTube: " ++ youtubeUrl urls ++ nl
                         ++ "Uploaded to SoundCloud: " ++ soundcloudUrl urls) false
            | Rejects err =>
                Respond ("An error occurred while uploading the song" ++ fence err) true
            end]
        ++ map Unlink ((if canUseYoutube cfg then [videoPath] else [])
                         ++ [audioPath; imagePath]))%list, Next tt).
Proof.
  intros H. unfold callback, catch. rewrite H.
  unfold bind, emit. rewrite deleteTemporaryFiles_unlinks.
  destruct (site w), (canUseYoutube cfg); reflexivity.
Qed.

End Reported.

(** X12: the URLs the publish stage returns are the ones reported everywhere:
    in the message to the feed when its channel is sendable; in the form posted
    to the site's /api/sound, whose entries are the title, the audio URL, the
    video URL, the audio file as track and the image file as cover, each named
    with the extension of its scratch file, and the tags as typed when there
    are any; and in the one answer to the requester, which is public and names
    both URLs when the site took the submission, and is ephemeral, with the
    site's error between code fences, when it did not. *)
Theorem published_urls_reported (cfg : Config) (w : World) (i : Interaction)
    (audio image : Attachment) (title : string) (r : Resolution)
    (s s' : nat) (b b' : string) (l : list Effect) (urls : Urls) :
  accepted i audio image title ->
  Gate.resolved (confirmation w i) = Some r -> result r = true ->
  audioFetch w = Response s b -> imageFetch w = Response s' b' ->
  (canUseYoutube cfg = true -> ffmpeg w = ExecOk) ->
  uploadToYoutubeAndSoundcloud cfg w i (audioPath audio) (imagePath image) (videoPath i)
    title (descriptionOf i) (parseTags (tagsStringOf i)) = (l, Next (Some urls)) ->
  responses (trace cfg w i)
  = [match site w with
     | Resolves _ =>
         ("Uploaded to YouTube: " ++ youtubeUrl urls ++ nl
          ++ "Uploaded to SoundCloud: " ++ soundcloudUrl urls, false)
     | Rejects err =>
         ("An error occurred while uploading the song"
            ++ nl ++ "```" ++ nl ++ err ++ nl ++ "```", true)
     end]
  /\ In (FetchHMAC (siteUrl cfg "/api/sound") "POST"
           ([Field "title" title;
             Field "soundcloudUrl" (soundcloudUrl urls);
             Field "youtubeUrl" (youtubeUrl urls);
             File "track" (audioPath audio) ("track" ++ JS.extname (audioPath audio));
             File "cover" (imagePath image) ("cover" ++ JS.extname (imagePath image))]
              ++ match tagsStringOf i with
                 | EmptyString => []
                 | String _ _ => [Field "tags" (tagsStringOf i)]
                 end)%list)
        (trace cfg w i)
  /\ (feedChannel w = Resolves true ->
      In (FeedSend ("Uploaded by <@" ++ userId i ++ ">" ++ nl ++ "Title: " ++ title
                    ++ nl ++ "YouTube: " ++ youtubeUrl urls
                    ++ nl ++ "SoundCloud: " ++ soundcloudUrl urls)) (trace cfg w i)).
Proof.
  intros Hacc Hg Hr Ha Him Hf Hu.
  destruct (ofGate_silent _ (confirmation_ofGate w i)) as [_ Hgr].
  destruct (upload_returned_urls cfg w i _ _ _ _ _ _ l urls Hu) as [Hl Hfeed].
  unfold trace.
  rewrite (run_reached cfg w i audio image title r s s' b b' Hacc Hg Hr Ha Him Hf).
  rewrite (callback_submitted cfg w i _ _ _ _ _ (tagsStringOf i) _ l urls Hu).
  cbv beta iota zeta delta [finish fst snd]. unfold prelude.
  split; [|split].
  - rewrite !responses_app, Hgr. simpl. rewrite Hl.
    destruct (canUseYoutube cfg), (site w); reflexivity.
  - in_trace ltac:(left; unfold formData; destruct (tagsStringOf i); reflexivity).
  - intros H. in_trace ltac:(now apply Hfeed).
Qed.

Lemma published_urls_reported_witness :
  responses (trace sampleConfig sampleWorld sampleRequest)
  = [("Uploaded to YouTube: https://www.youtube.com/watch?v=dQw4" ++ nl
      ++ "Uploaded to SoundCloud: https://soundcloud.example/t", false)].
Proof.
  refine (proj1 (published_urls_reported sampleConfig sampleWorld sampleRequest
                   sampleAudio sampleImage "Test Song" Confirmed 200 200 "AUDIO" "IMAGE"
                   _ {| youtubeUrl := "https://www.youtube.com/watch?v=dQw4";
                        soundcloudUrl := "https://soundcloud.example/t" |}
                   sampleRequest_accepted eq_refl eq_refl eq_refl eq_refl
                   (fun _ => eq_refl) eq_refl)).
Defined.

(** ** The video target (lines 23-37, 191-217) *)

(** The gate answers nothing to the feed or the site. *)
Lemma ofGate_unheard (l : list Effect) :
  Forall ofGate l -> existsb ofFeed l = false /\ existsb ofSubmission l = false.
Proof.
  induction 1 as [|e l He _ [H1 H2]]; [split; reflexivity|].
  destruct e; simpl in He; try contradiction; simpl; auto.
Qed.

Section VideoTarget.

Variable cfg : Config.
Variable w : World.
Variable i : Interaction.
Variables audioPath imagePath videoPath title description tagsString : string.
Variable tags : list string.

(** Lines 27-35 and 211-217: what the callback does when the video platform
    does not report success. *)
Lemma callback_video_failed :
  canUseYoutube cfg = true -> videoNotUploaded w ->
  callback cfg w i audioPath imagePath videoPath title description tagsString tags ExecOk
  = (YoutubeUpload title (youtubeDescription description tags) tags videoPath
       :: Respond ("An error occurred while uploading the video"
                   ++ fence match youtube w with
                            | Resolves ytData => json ytData
                            | Rejects err => err
                            end) true
       :: match youtube w with
          | Resolves _ => [Unlink videoPath; Unlink audioPath; Unlink imagePath]
          | Rejects _ => []
          end,
     match youtube w with
     | Resolves _ => Next tt
     | Rejects _ => Stop Returned
     end).
Proof.
  intros Hc Hv. unfold videoNotUploaded in Hv.
  destruct (youtube w) as [ytData|err] eqn:Hy.
  - rewrite (callback_no_urls cfg w i _ _ _ _ _ _ _ _
               (upload_video_refused cfg w i _ _ _ _ _ _ ytData Hc Hy Hv)).
    rewrite Hc. reflexivity.
  - rewrite (callback_publish_threw cfg w i _ _ _ _ _ _ _ _ err
               (upload_video_throws cfg w i _ _ _ _ _ _ err Hc Hy)).
    reflexivity.
Qed.

(** Lines 23-24 and 39-56 with the video target off and the audio platform
    serving. *)
Lemma upload_audio_only (u : string) :
  canUseYoutube cfg = false -> canUseSoundcloud cfg = true ->
  soundcloud w = Resolves u ->
  uploadToYoutubeAndSoundcloud cfg w i audioPath imagePath videoPath title description tags
  = ([SoundcloudUpload title (soundcloudDescription description tags) tags
        audioPath imagePath;
      FeedFetch (feed cfg);
      match feedChannel w with
      | Resolves true =>
          FeedSend ("Uploaded by <@" ++ userId i ++ ">" ++ nl ++ "Title: " ++ title
                    ++ nl ++ "YouTube: " ++ placeholder
                    ++ nl ++ "SoundCloud: " ++ u)
      | Resolves false =>
          ConsoleError "Failed to send message to feed channel: Channel is not sendable"
      | Rejects err => ConsoleError ("Failed to send message to feed channel " ++ err)
      end],
     Next (Some {| youtubeUrl := placeholder; soundcloudUrl := u |})).
Proof.
  intros Hy Hc Hs. run_steps. rewrite Hy, Hc, Hs. simpl.
  destruct (feedChannel w) as [[|]|]; reflexivity.
Qed.

End VideoTarget.

(** C6: with the video target on, when its upload does not report success the
    publish stage stops. When the platform answers with a status other than
    uploaded, the stage has called the video platform, told the requester that
    an error occurred while uploading the video, with the status payload of
    the platform between code fences, and returns no URL; when the call itself
    fails, its error leaves the stage at once. In either case the audio
    platform is not called anywhere in the run; and a confirmed run whose
    files were stored and encoded gives the requester that one ephemeral
    answer, with the payload or the error of the platform, hands the platform
    the video once, tells neither the feed nor the site, and returns. *)
Theorem video_failure_stops_publishing (cfg : Config) (w : World) (i : Interaction) :
  canUseYoutube cfg = true ->
  (forall (audioPath imagePath videoPath title description : string)
          (tags : list string) (ytData : YtData),
     youtube w = Resolves ytData -> uploaded ytData = false ->
     uploadToYoutubeAndSoundcloud cfg w i audioPath imagePath videoPath
       title description tags
     = ([YoutubeUpload title
           (description ++ nl ++ nl ++ "Tags: "
              ++ (if (0 <? List.length tags)%nat then JS.join ", " tags else "N/A"))
           tags videoPath;
         Respond ("An error occurred while uploading the video"
                    ++ nl ++ "```" ++ nl ++ json ytData ++ nl ++ "```") true],
        Next None))
  /\ (forall (audioPath imagePath videoPath title description : string)
             (tags : list string) (err : string),
        youtube w = Rejects err ->
        uploadToYoutubeAndSoundcloud cfg w i audioPath imagePath videoPath
          title description tags
        = ([YoutubeUpload title
              (description ++ nl ++ nl ++ "Tags: "
                 ++ (if (0 <? List.length tags)%nat then JS.join ", " tags else "N/A"))
              tags videoPath],
           Stop (Threw err)))
  /\ (videoNotUploaded w -> soundcloudCalls (trace cfg w i) = [])
  /\ (forall (audio image : Attachment) (title : string) (r : Resolution)
             (s s' : nat) (b b' : string),
        accepted i audio image title ->
        Gate.resolved (confirmation w i) = Some r -> result r = true ->
        audioFetch w = Response s b -> imageFetch w = Response s' b' ->
        ffmpeg w = ExecOk -> videoNotUploaded w ->
        responses (trace cfg w i)
        = [("An error occurred while uploading the video"
              ++ nl ++ "```" ++ nl
              ++ match youtube w with
                 | Resolves ytData => json ytData
                 | Rejects err => err
                 end
              ++ nl ++ "```", true)]
        /\ videoUploads (trace cfg w i) = [videoPath i]
        /\ existsb ofFeed (trace cfg w i) = false
        /\ existsb ofSubmission (trace cfg w i) = false
        /\ snd (run cfg w i) = Returned).
Proof.
  intros Hc. split; [|split; [|split]].
  - intros a im v t d tags ytData Hy Hu. now apply upload_video_refused.
  - intros a im v t d tags err Hy. now apply upload_video_throws.
  - intros Hv.
    destruct (ofGate_none _ (confirmation_ofGate w i)) as (_ & _ & _ & Hs & _).
    by_trace_shape w i; rewrite ?soundcloudCalls_app, ?Hs; try reflexivity.
    now rewrite pipeline_no_soundcloud.
  - intros audio image title r s s' b b' Hacc Hg Hr Ha Him Hf Hv.
    destruct (ofGate_silent _ (confirmation_ofGate w i)) as [_ Hr1].
    destruct (ofGate_unheard _ (confirmation_ofGate w i)) as [Hr2 Hr3].
    destruct (ofGate_no_video _ (confirmation_ofGate w i)) as [Hgv _].
    unfold trace.
    rewrite (run_reached cfg w i audio image title r s s' b b' Hacc Hg Hr Ha Him
               (fun _ => Hf)).
    rewrite (callback_video_failed cfg w i _ _ _ _ _ _ _ Hc Hv), Hc.
    cbv beta iota zeta delta [finish fst snd]. unfold prelude.
    destruct (youtube w); cbv beta iota zeta delta [fst snd];
      rewrite !responses_app, !videoUploads_app, !existsb_app, Hr1, Hr2, Hr3, Hgv;
      repeat split.
Qed.

Lemma video_failure_stops_publishing_witness :
  responses
    (trace sampleConfig (withYoutube (Resolves refusedVideo) sampleWorld) sampleRequest)
  = [("An error occurred while uploading the video"
        ++ nl ++ "```" ++ nl ++ "{ status: { uploadStatus: rejected } }" ++ nl ++ "```",
      true)].
Proof.
  apply (proj1 (proj2 (proj2 (proj2 (video_failure_stops_publishing sampleConfig
                                       (withYoutube (Resolves refusedVideo) sampleWorld)
                                       sampleRequest eq_refl)))
                  sampleAudio sampleImage "Test Song" Confirmed 200 200 "AUDIO" "IMAGE"
                  sampleRequest_accepted eq_refl eq_refl eq_refl eq_refl eq_refl eq_refl)).
Defined.

(** C7: with the video target off, no run calls the encoder or the video
    platform, and the video URL of whatever the publish stage returns is the
    fixed string https://example.com/. The audio platform is called as it is
    when the video target is on and served: when the audio target is on and
    its platform answers with a URL, the publish stage calls it with the
    title, the description followed by the tags, the tags and the two files,
    asks for the feed channel, and returns the placeholder with the audio URL;
    a confirmed run whose files were stored then calls the audio platform
    once, submits both URLs to the site, names both in its one answer to the
    requester, and in the message to the feed when its channel is sendable. *)
Theorem video_target_disabled (cfg : Config) (w : World) (i : Interaction) :
  canUseYoutube cfg = false ->
  Forall (fun e => video e = false) (trace cfg w i)
  /\ (forall (audioPath imagePath videoPath title description : string)
             (tags : list string) (l : list Effect) (urls : Urls),
        uploadToYoutubeAndSoundcloud cfg w i audioPath imagePath videoPath
          title description tags = (l, Next (Some urls)) ->
        youtubeUrl urls = "https://example.com/")
  /\ (forall ytData : YtData,
        ffmpeg w = ExecOk -> youtube w = Resolves ytData -> uploaded ytData = true ->
        soundcloudCalls (trace cfg w i)
        = soundcloudCalls (trace (videoTarget true cfg) w i))
  /\ (forall (audioPath imagePath videoPath title description u : string)
             (tags : list string),
        canUseSoundcloud cfg = true -> soundcloud w = Resolves u ->
        uploadToYoutubeAndSoundcloud cfg w i audioPath imagePath videoPath
          title description tags
        = ([SoundcloudUpload title
              (description ++ nl ++ nl ++ "Tags: " ++ JS.join ", " tags)
              tags audioPath imagePath;
            FeedFetch (feed cfg);
            match feedChannel w with
            | Resolves true =>
                FeedSend ("Uploaded by <@" ++ userId i ++ ">" ++ nl
                          ++ "Title: " ++ title ++ nl
                          ++ "YouTube: https://example.com/" ++ nl
                          ++ "SoundCloud: " ++ u)
            | Resolves false =>
                ConsoleError "Failed to send message to feed channel: Channel is not sendable"
            | Rejects err =>
                ConsoleError ("Failed to send message to feed channel " ++ err)
            end],
           Next (Some {| youtubeUrl := "https://example.com/"; soundcloudUrl := u |})))
  /\ (forall (audio image : Attachment) (title u : string) (r : Resolution)
             (s s' : nat) (b b' : string),
        accepted i audio image title ->
        Gate.resolved (confirmation w i) = Some r -> result r = true ->
        audioFetch w = Response s b -> imageFetch w = Response s' b' ->
        canUseSoundcloud cfg = true -> soundcloud w = Resolves u ->
        soundcloudCalls (trace cfg w i)
        = [SoundcloudUpload title
             (descriptionOf i ++ nl ++ nl ++ "Tags: "
                ++ JS.join ", " (parseTags (tagsStringOf i)))
             (parseTags (tagsStringOf i)) (audioPath audio) (imagePath image)]
        /\ (exists form : list FormEntry,
              In (FetchHMAC (siteUrl cfg "/api/sound") "POST" form) (trace cfg w i)
              /\ In (Field "youtubeUrl" "https://example.com/") form
              /\ In (Field "soundcloudUrl" u) form)
        /\ responses (trace cfg w i)
           = [match site w with
              | Resolves _ =>
                  ("Uploaded to YouTube: https://example.com/" ++ nl
                   ++ "Uploaded to SoundCloud: " ++ u, false)
              | Rejects err =>
                  ("An error occurred while uploading the song"
                     ++ nl ++ "```" ++ nl ++ err ++ nl ++ "```", true)
              end]
        /\ (feedChannel w = Resolves true ->
            In (FeedSend ("Uploaded by <@" ++ userId i ++ ">" ++ nl
                          ++ "Title: " ++ title ++ nl
                          ++ "YouTube: https://example.com/" ++ nl
                          ++ "SoundCloud: " ++ u)) (trace cfg w i))).
Proof.
  intros Hc. split; [|split; [|split; [|split]]].
  - destruct (ofGate_no_video _ (confirmation_ofGate w i)) as [_ Hg].
    by_trace_shape w i; unfold prelude; all_effects.
    now apply pipeline_no_video.
  - intros a im v t d tags l urls. now apply upload_video_disabled.
  - intros ytData Hf Hy Hu.
    destruct cfg as [y s fd su]; simpl in Hc; subst y.
    by_trace_shape w i; try reflexivity.
    rewrite !soundcloudCalls_app. do 2 f_equal.
    exact (pipeline_audio_unaffected (Build_Config false s fd su) w i _ _ _ _ _ _
             ytData Hf Hy Hu).
  - intros a im v t d u tags Hs Hu.
    exact (upload_audio_only cfg w i a im v t d tags u Hc Hs Hu).
  - intros audio image title u r s s' b b' Hacc Hg Hr Ha Him Hs Hu.
    destruct (ofGate_silent _ (confirmation_ofGate w i)) as [_ Hgr].
    destruct (ofGate_none _ (confirmation_ofGate w i)) as (_ & _ & _ & Hgs & _).
    pose proof (upload_audio_only cfg w i (audioPath audio) (imagePath image)
                  (videoPath i) title (descriptionOf i) (parseTags (tagsStringOf i))
                  u Hc Hs Hu) as Hup.
    unfold trace.
    rewrite (run_reached cfg w i audio image title r s s' b b' Hacc Hg Hr Ha Him
               (fun H => False_ind _ (eq_ind false (fun x => if x then False else True) I
                                        true (eq_trans (eq_sym Hc) H)))).
    rewrite (callback_submitted cfg w i _ _ _ _ _ (tagsStringOf i) _ _ _ Hup), Hc.
    cbv beta iota zeta delta [finish fst snd youtubeUrl soundcloudUrl]. unfold prelude.
    split; [|split; [|split]].
    + rewrite !soundcloudCalls_app, Hgs.
      destruct (site w), (feedChannel w) as [[|]|]; simpl; reflexivity.
    + eexists. split.
      * in_trace ltac:(left; reflexivity).
      * split; [right; right; left; reflexivity | right; left; reflexivity].
    + rewrite !responses_app, Hgr.
      destruct (site w), (feedChannel w) as [[|]|]; simpl; reflexivity.
    + intros Hfd. rewrite Hfd. in_trace ltac:(left; reflexivity).
Qed.

Lemma video_target_disabled_witness :
  responses (trace (videoTarget false sampleConfig) sampleWorld sampleRequest)
  = [("Uploaded to YouTube: https://example.com/" ++ nl
      ++ "Uploaded to SoundCloud: https://soundcloud.example/t", false)].
Proof.
  apply (proj1 (proj2 (proj2
           (proj2 (proj2 (proj2 (proj2
              (video_target_disabled (videoTarget false sampleConfig) sampleWorld
                 sampleRequest eq_refl))))
              sampleAudio sampleImage "Test Song" "https://soundcloud.example/t" Confirmed
              200 200 "AUDIO" "IMAGE"
              sampleRequest_accepted eq_refl eq_refl eq_refl eq_refl eq_refl eq_refl)))).
Defined.
